(** * OpenBLT bootloader: CAN bus timing / packet filter (ARMCM4_STM32F3/can.c)
      and application hand-off / bulk memory operations (ARMCM4_XMC4/cpu.c).

    The C functions are embedded as Rocq functions over [Z]:
    - unsigned C integers are [Z] values, the wrap-around of a store into a
      narrower object is written out ([wrap8], [wrap16], [wrap32]);
    - C [/] and [%] are [Z.quot] and [Z.rem] (truncation toward zero), a zero
      divisor is undefined behaviour and yields [None];
    - out-parameters are threaded explicitly;
    - external collaborators (HAL, NVM, timer, watchdog, ...) are section
      variables or logged events. *)

From Stdlib Require Import ZArith List Bool Lia Sorted.
From stdpp Require Import base list sorting.
Import ListNotations.

#[local] Open Scope Z_scope.

(** ** Fixed-width unsigned integers (blt_int8u, blt_int16u, blt_int32u) *)

Definition wrap8 (x : Z) : Z := x mod 2 ^ 8.
Definition wrap16 (x : Z) : Z := x mod 2 ^ 16.
Definition wrap32 (x : Z) : Z := x mod 2 ^ 32.

(* ===================================================================== *)
(** * can.c *)
(* ===================================================================== *)

Module Can.

(** [tCanBusTiming]: two blt_int8u fields. *)
Record tCanBusTiming : Type := mkTiming { tseg1 : Z; tseg2 : Z }.

(** The constant table [canTiming], in source order. *)
Definition canTiming : list tCanBusTiming :=
  [ mkTiming 5 2;  mkTiming 6 2;  mkTiming 6 3;  mkTiming 7 3;
    mkTiming 8 3;  mkTiming 9 3;  mkTiming 9 4;  mkTiming 10 4;
    mkTiming 11 4; mkTiming 12 4; mkTiming 12 5; mkTiming 13 5;
    mkTiming 14 5; mkTiming 15 5; mkTiming 15 6; mkTiming 16 6;
    mkTiming 16 7; mkTiming 16 8 ].

(** Total number of time quanta in a bit: SYNC (always 1) + TSEG1 + TSEG2. *)
Definition total_quanta (e : tCanBusTiming) : Z := tseg1 e + tseg2 e + 1.

(** The value ranges found in the table. *)
Definition entry_bounds (e : tCanBusTiming) : Prop :=
  5 <= tseg1 e <= 16 /\ 2 <= tseg2 e <= 8 /\ 8 <= total_quanta e <= 25.

(** The three objects behind the out-pointers of [CanGetSpeedConfig]:
    [blt_int16u *prescaler], [blt_int8u *tseg1], [blt_int8u *tseg2]. *)
Record speed_out : Type :=
  mkOut { out_prescaler : Z; out_tseg1 : Z; out_tseg2 : Z }.

Definition set_prescaler (v : Z) (o : speed_out) : speed_out :=
  mkOut (wrap16 v) (out_tseg1 o) (out_tseg2 o).

Definition set_tsegs (e : tCanBusTiming) (o : speed_out) : speed_out :=
  mkOut (out_prescaler o) (wrap8 (tseg1 e)) (wrap8 (tseg2 e)).

Section SpeedConfig.

(** [BOOT_CPU_SYSTEM_SPEED_KHZ] comes from blt_conf.h, which is not part
    of the sources at hand; it is a parameter of the model. *)
Variable BOOT_CPU_SYSTEM_SPEED_KHZ : Z.

(** The body of the [for] loop, run over the table entries that are still
    to be visited ([canTiming[cnt]], [canTiming[cnt+1]], ...).  The result
    is [None] when the C code divides by zero, and otherwise the returned
    [blt_bool] together with the final contents of the out-parameters. *)
Fixpoint CanGetSpeedConfig_loop (todo : list tCanBusTiming) (baud : Z)
    (o : speed_out) : option (bool * speed_out) :=
  match todo with
  | [] => Some (false, o)
  | e :: rest =>
      let d := baud * (tseg1 e + tseg2 e + 1) in
      if d =? 0 then None
      else if Z.rem (Z.quot BOOT_CPU_SYSTEM_SPEED_KHZ 2) d =? 0 then
        let o1 := set_prescaler (Z.quot (Z.quot BOOT_CPU_SYSTEM_SPEED_KHZ 2) d) o in
        if (out_prescaler o1 >? 0) && (out_prescaler o1 <=? 1024) then
          Some (true, set_tsegs e o1)
        else CanGetSpeedConfig_loop rest baud o1
      else CanGetSpeedConfig_loop rest baud o
  end.

Definition CanGetSpeedConfig (baud : Z) (o : speed_out)
    : option (bool * speed_out) :=
  CanGetSpeedConfig_loop canTiming baud o.

(** What the specification calls a satisfying table entry, with the
    mathematical division and remainder on [Z]. *)
Definition divides_evenly (baud : Z) (e : tCanBusTiming) : Prop :=
  (BOOT_CPU_SYSTEM_SPEED_KHZ / 2) mod (baud * total_quanta e) = 0.

Definition quotient (baud : Z) (e : tCanBusTiming) : Z :=
  (BOOT_CPU_SYSTEM_SPEED_KHZ / 2) / (baud * total_quanta e).

Definition satisfies (baud : Z) (e : tCanBusTiming) : Prop :=
  divides_evenly baud e /\ 1 <= quotient baud e <= 1024.

(** The same test as a boolean, to decide it on concrete inputs. *)
Definition satisfiesb (baud : Z) (e : tCanBusTiming) : bool :=
  ((BOOT_CPU_SYSTEM_SPEED_KHZ / 2) mod (baud * total_quanta e) =? 0)
  && (1 <=? quotient baud e) && (quotient baud e <=? 1024).

End SpeedConfig.

(** *** Reception *)

(** Return codes of the HAL driver (stm32f3xx_hal_def.h). *)
Inductive HAL_StatusTypeDef : Type := HAL_OK | HAL_ERROR | HAL_BUSY | HAL_TIMEOUT.

(** The fields of the HAL's [CanRxMsgTypeDef] that can.c reads; [Data] is
    the array [uint8_t Data[8]]. *)
Record CanRxMsgTypeDef : Type := mkRxMsg {
  StdId : Z;
  ExtId : Z;
  IDE : Z;
  DLC : Z;
  Data : list Z
}.

(** The objects behind [blt_int8u *data] and [blt_int8u *len]. *)
Record rx_out : Type := mkRxOut { out_data : list Z; out_len : Z }.

Section Receive.

(** Configuration and HAL constants that are declared outside can.c. *)
Variable BOOT_COM_CAN_RX_MSG_ID : Z.
Variables CAN_ID_STD CAN_ID_EXT : Z.

(** [for (byteIdx = 0; byteIdx < DLC; byteIdx++) data[byteIdx] = Data[byteIdx];]
    with [byteIdx] a blt_int8u.  [None] stands for a read past [Data], a
    write past the caller's array, or a loop that does not end (which needs
    more than 256 rounds). *)
Fixpoint copy_loop (fuel : nat) (byteIdx : Z) (msg : CanRxMsgTypeDef)
    (data : list Z) : option (list Z) :=
  match fuel with
  | O => None
  | S fuel' =>
      if byteIdx <? DLC msg then
        match Data msg !! Z.to_nat byteIdx with
        | None => None
        | Some b =>
            if (Z.to_nat byteIdx <? length data)%nat then
              copy_loop fuel' (wrap8 (byteIdx + 1)) msg
                        (<[Z.to_nat byteIdx := b]> data)
            else None
        end
      else Some data
  end.

(** [hal] is what the call [HAL_CAN_Receive(&canHandle, CAN_FIFO0, 0)]
    produced: its status, and the contents of [canRxMessage] after it. *)
Definition CanReceivePacket (hal : HAL_StatusTypeDef * CanRxMsgTypeDef)
    (o : rx_out) : option (bool * rx_out) :=
  let rxMsgId := wrap32 BOOT_COM_CAN_RX_MSG_ID in
  match fst hal with
  | HAL_OK =>
      let msg := snd hal in
      let packetIdMatches :=
        if Z.land rxMsgId 0x80000000 =? 0 then
          (StdId msg =? rxMsgId) && (IDE msg =? CAN_ID_STD)
        else
          let rxMsgId := Z.land rxMsgId (wrap32 (Z.lnot 0x80000000)) in
          (ExtId msg =? rxMsgId) && (IDE msg =? CAN_ID_EXT) in
      if packetIdMatches then
        match copy_loop 256 0 msg (out_data o) with
        | Some data' => Some (true, mkRxOut data' (wrap8 (DLC msg)))
        | None => None
        end
      else Some (false, o)
  | _ => Some (false, o)
  end.

(** The configured receive filter, read off the 32-bit identifier: bit 31
    selects the 29-bit (extended) format, the remaining bits are the
    identifier. *)
Definition filter_extended : bool := Z.testbit (wrap32 BOOT_COM_CAN_RX_MSG_ID) 31.
Definition filter_ident : Z := wrap32 BOOT_COM_CAN_RX_MSG_ID mod 2 ^ 31.

(** A frame matches when its width is the filter's width and the
    identifier of that width equals the filter's identifier. *)
Definition frame_matches (msg : CanRxMsgTypeDef) : Prop :=
  if filter_extended
  then IDE msg = CAN_ID_EXT /\ ExtId msg = filter_ident
  else IDE msg = CAN_ID_STD /\ StdId msg = filter_ident.

End Receive.

(** *** Transmission *)

(** The fields of the HAL's [CanTxMsgTypeDef]; [tx_Data] is the array
    [uint8_t Data[8]]. *)
Record CanTxMsgTypeDef : Type := mkTxMsg {
  tx_StdId : Z;
  tx_ExtId : Z;
  tx_IDE : Z;
  tx_RTR : Z;
  tx_DLC : Z;
  tx_Data : list Z
}.

Definition CAN_MSG_TX_TIMEOUT_MS : Z := 50.

Section Transmit.

(** Configuration and HAL constants that are declared outside can.c. *)
Variable BOOT_COM_CAN_TX_MSG_ID : Z.
Variables CAN_ID_STD CAN_ID_EXT CAN_RTR_DATA : Z.

(** [for (byteIdx = 0; byteIdx < len; byteIdx++) Data[byteIdx] = data[byteIdx];]
    with [byteIdx] and [len] blt_int8u.  [None] stands for a read past the
    caller's array or a write past [Data]. *)
Fixpoint tx_copy_loop (fuel : nat) (byteIdx len : Z) (data buf : list Z)
    : option (list Z) :=
  match fuel with
  | O => None
  | S fuel' =>
      if byteIdx <? len then
        match data !! Z.to_nat byteIdx with
        | None => None
        | Some b =>
            if (Z.to_nat byteIdx <? length buf)%nat then
              tx_copy_loop fuel' (wrap8 (byteIdx + 1)) len data
                           (<[Z.to_nat byteIdx := b]> buf)
            else None
        end
      else Some buf
  end.

(** [txmsg] is [canTxMessage] before the call.  The result is the message
    as it stands when [HAL_CAN_Transmit] is called, and the timeout given
    to that call; what the HAL returns is not looked at. *)
Definition CanTransmitPacket (txmsg : CanTxMsgTypeDef) (data : list Z)
    (len : Z) : option (CanTxMsgTypeDef * Z) :=
  let txMsgId := wrap32 BOOT_COM_CAN_TX_MSG_ID in
  let m1 :=
    if Z.land txMsgId 0x80000000 =? 0 then
      mkTxMsg txMsgId (tx_ExtId txmsg) CAN_ID_STD
              (tx_RTR txmsg) (tx_DLC txmsg) (tx_Data txmsg)
    else
      let txMsgId := Z.land txMsgId (wrap32 (Z.lnot 0x80000000)) in
      mkTxMsg (tx_StdId txmsg) txMsgId CAN_ID_EXT
              (tx_RTR txmsg) (tx_DLC txmsg) (tx_Data txmsg) in
  match tx_copy_loop 256 0 len data (tx_Data m1) with
  | Some buf =>
      Some (mkTxMsg (tx_StdId m1) (tx_ExtId m1) (tx_IDE m1)
                    CAN_RTR_DATA len buf,
            CAN_MSG_TX_TIMEOUT_MS)
  | None => None
  end.

End Transmit.

(** The receive buffer [rx] holds the frame that was sent as [m]: the
    same width, length and data bytes, and the identifier in the field of
    that width ([std], [ext] are the HAL's [CAN_ID_STD], [CAN_ID_EXT]). *)
Definition carries (std ext : Z) (rx : CanRxMsgTypeDef) (m : CanTxMsgTypeDef)
    : Prop :=
  IDE rx = tx_IDE m /\ DLC rx = tx_DLC m /\ Data rx = tx_Data m /\
  (tx_IDE m = std -> StdId rx = tx_StdId m) /\
  (tx_IDE m = ext -> ExtId rx = tx_ExtId m).

(** *** Initialisation *)

(** The fields of the HAL's [CAN_InitTypeDef] and [CAN_FilterConfTypeDef]. *)
Record CAN_InitTypeDef : Type := mkInit {
  Prescaler : Z; Mode : Z; SJW : Z; BS1 : Z; BS2 : Z;
  TTCM : Z; ABOM : Z; AWUM : Z; NART : Z; RFLM : Z; TXFP : Z
}.

Record CAN_FilterConfTypeDef : Type := mkFilter {
  FilterIdHigh : Z; FilterIdLow : Z;
  FilterMaskIdHigh : Z; FilterMaskIdLow : Z;
  FilterFIFOAssignment : Z; FilterNumber : Z;
  FilterMode : Z; FilterScale : Z; FilterActivation : Z; BankNumber : Z
}.

(** Modelled from the spec: [ASSERT_RT] is defined in assert.h, which is not
    among the sources at hand; a failed run-time assertion halts the
    bootloader (the specification: a configuration without valid bus timing
    is fatal, the reference behaviour halts).  [InitDone] carries what is
    handed to [HAL_CAN_Init] and to [HAL_CAN_ConfigFilter]. *)
Inductive init_result : Type :=
| InitAsserted
| InitDone (init : CAN_InitTypeDef) (filterConfig : CAN_FilterConfTypeDef).

Section Init.

(** Configuration (blt_conf.h) and constants of the HAL and device
    headers. *)
Variable BOOT_CPU_SYSTEM_SPEED_KHZ : Z.
Variable BOOT_COM_CAN_BAUDRATE : Z.
Variable BOOT_COM_CAN_RX_MSG_ID : Z.
Variables DISABLE ENABLE CAN_MODE_NORMAL CAN_SJW_1TQ : Z.
Variables CAN_BTR_TS1_Pos CAN_BTR_TS2_Pos : Z.
Variables CAN_RI0R_STID_Pos CAN_RI0R_STID_Msk : Z.
Variables CAN_RI0R_EXID_Pos CAN_RI0R_EXID_Msk CAN_RI0R_IDE : Z.
Variables CAN_FILTERMODE_IDMASK CAN_FILTERSCALE_32BIT : Z.

(** The first argument of the call of [CanGetSpeedConfig], converted to
    its blt_int16u parameter. *)
Definition CanInit_baud : Z := wrap16 (Z.quot BOOT_COM_CAN_BAUDRATE 1000).

(** [rxFilterId] and [rxFilterMask]. *)
Definition CanInit_filter : Z * Z :=
  let rxMsgId := wrap32 BOOT_COM_CAN_RX_MSG_ID in
  if Z.land rxMsgId 0x80000000 =? 0 then
    (wrap32 (Z.shiftl rxMsgId CAN_RI0R_STID_Pos),
     wrap32 (Z.lor CAN_RI0R_STID_Msk CAN_RI0R_IDE))
  else
    let rxMsgId := Z.land rxMsgId (wrap32 (Z.lnot 0x80000000)) in
    (wrap32 (Z.lor (Z.shiftl rxMsgId CAN_RI0R_EXID_Pos) CAN_RI0R_IDE),
     wrap32 (Z.lor CAN_RI0R_EXID_Msk CAN_RI0R_IDE)).

(** [prescaler0] is whatever the local [prescaler] holds before it is
    assigned. *)
Definition CanInit (prescaler0 : Z) : option init_result :=
  match CanGetSpeedConfig BOOT_CPU_SYSTEM_SPEED_KHZ CanInit_baud
          (mkOut prescaler0 0 0) with
  | None => None
  | Some (false, _) => Some InitAsserted
  | Some (true, o) =>
      let init :=
        mkInit (out_prescaler o) CAN_MODE_NORMAL CAN_SJW_1TQ
               (wrap32 (Z.shiftl (wrap32 (out_tseg1 o - 1)) CAN_BTR_TS1_Pos))
               (wrap32 (Z.shiftl (wrap32 (out_tseg2 o - 1)) CAN_BTR_TS2_Pos))
               DISABLE DISABLE DISABLE DISABLE DISABLE DISABLE in
      let (rxFilterId, rxFilterMask) := CanInit_filter in
      let filterConfig :=
        mkFilter (Z.land (Z.shiftr rxFilterId 16) 0x0000FFFF)
                 (Z.land rxFilterId 0x0000FFFF)
                 (Z.land (Z.shiftr rxFilterMask 16) 0x0000FFFF)
                 (Z.land rxFilterMask 0x0000FFFF)
                 0 0 CAN_FILTERMODE_IDMASK CAN_FILTERSCALE_32BIT ENABLE 14 in
      Some (InitDone init filterConfig)
  end.

End Init.

End Can.

(* ===================================================================== *)
(** * cpu.c *)
(* ===================================================================== *)

Module Cpu.

(** Address of the vector table offset register [SCB_VTOR]. *)
Definition SCB_VTOR : Z := 0xE000ED08.

(** What the module does to its surroundings, in program order: calls of
    collaborators that act on the hardware, stores to memory-mapped
    registers, and the call through the reset-handler pointer. *)
Inductive event : Type :=
| EvCpuIrqDisable
| EvCpuIrqEnable
| EvComFree
| EvTimerReset
| EvCopService
| EvWriteReg (addr value : Z)
| EvCall (target : Z).

#[global] Instance event_eq_dec : EqDecision event.
Proof. solve_decision. Defined.

(** Byte-addressed memory and the log of events so far. *)
Record world : Type := mkWorld { mem : Z -> Z; log : list event }.

(** A run either comes back to the caller, hands the processor to the code
    at the called address (the user program's reset handler sets up its own
    stack and never comes back), or is cut off by lack of fuel. *)
Inductive outcome (A : Type) : Type :=
| Returned (a : A) (w : world)
| Transferred (w : world)
| OutOfFuel.
Arguments Returned {A} a w.
Arguments Transferred {A} w.
Arguments OutOfFuel {A}.

Definition M (A : Type) : Type := world -> outcome A.

#[global] Instance M_ret : MRet M := fun A a w => Returned a w.

#[global] Instance M_bind : MBind M := fun A B k m w =>
  match m w with
  | Returned a w' => k a w'
  | Transferred w' => Transferred w'
  | OutOfFuel => OutOfFuel
  end.

Definition emit (e : event) : M unit :=
  fun w => Returned tt (mkWorld (mem w) (log w ++ [e])).

Definition query {A} (f : world -> A) : M A := fun w => Returned (f w) w.

Definition load8 (addr : Z) : M Z := query (fun w => mem w addr).

Definition store8 (addr v : Z) : M unit :=
  fun w => Returned tt
    (mkWorld (fun a => if a =? addr then wrap8 v else mem w a) (log w)).

(** Little-endian 32-bit load, as the Cortex-M4 does it. *)
Definition read32 (m : Z -> Z) (addr : Z) : Z :=
  m addr + 2 ^ 8 * m (wrap32 (addr + 1)) + 2 ^ 16 * m (wrap32 (addr + 2))
  + 2 ^ 24 * m (wrap32 (addr + 3)).

Definition load32 (addr : Z) : M Z := query (fun w => read32 (mem w) addr).

(** Call through a function pointer into the user program. *)
Definition call_ptr (target : Z) : M unit :=
  fun w => Transferred (mkWorld (mem w) (log w ++ [EvCall target])).

Definition CpuIrqDisable : M unit := emit EvCpuIrqDisable.
Definition CpuIrqEnable : M unit := emit EvCpuIrqEnable.
Definition ComFree : M unit := emit EvComFree.
Definition TimerReset : M unit := emit EvTimerReset.
Definition CopService : M unit := emit EvCopService.
Definition write_reg (addr v : Z) : M unit := emit (EvWriteReg addr v).

Section Handoff.

(** Build configuration (blt_conf.h / boot.h, outside cpu.c). *)
Variable BOOT_CPU_USER_PROGRAM_START_HOOK : Z.
Variable BOOT_COM_ENABLE : Z.

(** Collaborators that only answer a question. *)
Variable NvmVerifyChecksum : world -> bool.
Variable CpuUserProgramStartHook : world -> bool.
Variable NvmGetUserProgBaseAddress : Z.

Definition CPU_USER_PROGRAM_STARTADDR_PTR : Z :=
  wrap32 (NvmGetUserProgBaseAddress + 0x00000004).

Definition CPU_USER_PROGRAM_VECTABLE_OFFSET : Z :=
  wrap32 NvmGetUserProgBaseAddress.

Definition CpuInit : M unit := CpuIrqDisable.

Definition CpuStartUserProgram : M unit :=
  present ← query NvmVerifyChecksum;
  if negb present then mret tt
  else
    go ← (if BOOT_CPU_USER_PROGRAM_START_HOOK >? 0
          then query CpuUserProgramStartHook else mret true);
    if negb go then mret tt
    else
      (if BOOT_COM_ENABLE >? 0 then ComFree else mret tt);;
      TimerReset;;
      write_reg SCB_VTOR (Z.land CPU_USER_PROGRAM_VECTABLE_OFFSET 0x1FFFFF80);;
      pProgResetHandler ← load32 CPU_USER_PROGRAM_STARTADDR_PTR;
      CpuIrqEnable;;
      call_ptr pProgResetHandler.

End Handoff.

(** [while (len-- > 0) { *to++ = *from++; CopService(); }] with [len] a
    blt_int16u: the test reads [len], then [len] is decremented modulo 2^16. *)
Fixpoint CpuMemCopy_loop (fuel : nat) (to from len : Z) : M unit :=
  match fuel with
  | O => fun _ => OutOfFuel
  | S fuel' =>
      let len' := wrap16 (len - 1) in
      if len >? 0 then
        b ← load8 from;
        store8 to b;;
        CopService;;
        CpuMemCopy_loop fuel' (wrap32 (to + 1)) (wrap32 (from + 1)) len'
      else mret tt
  end.

(** The loop test runs at most 2^16 times for a 16-bit [len]. *)
Definition loop_fuel : nat := Z.to_nat 65536.

Definition CpuMemCopy (dest src len : Z) : M unit :=
  CpuMemCopy_loop loop_fuel dest src len.

(** [while (len-- > 0) { *to++ = value; CopService(); }] *)
Fixpoint CpuMemSet_loop (fuel : nat) (to value len : Z) : M unit :=
  match fuel with
  | O => fun _ => OutOfFuel
  | S fuel' =>
      let len' := wrap16 (len - 1) in
      if len >? 0 then
        store8 to value;;
        CopService;;
        CpuMemSet_loop fuel' (wrap32 (to + 1)) value len'
      else mret tt
  end.

Definition CpuMemSet (dest value len : Z) : M unit :=
  CpuMemSet_loop loop_fuel dest value len.

(** Whether the 32-bit address [a] is one of the [len] addresses that
    start at [to], wrapping around at 2^32. *)
Definition block_member (to len a : Z) : bool :=
  (0 <=? a) && (a <? 2 ^ 32) && (wrap32 (a - to) <? len).

(** The log at the end of a run that ended. *)
Definition final_log {A} (r : outcome A) : option (list event) :=
  match r with
  | Returned _ w => Some (log w)
  | Transferred w => Some (log w)
  | OutOfFuel => None
  end.

(** The values stored to the register at [addr], oldest first. *)
Definition reg_writes (addr : Z) (l : list event) : list Z :=
  omap (λ e, match e with
             | EvWriteReg a v => if a =? addr then Some v else None
             | _ => None
             end) l.

(** Number of watchdog services recorded in a log. *)
Definition cop_calls (l : list event) : nat :=
  length (filter (λ e, e = EvCopService) l).

End Cpu.

(* ===================================================================== *)
(** * Facts about the integer helpers *)
(* ===================================================================== *)

Lemma wrap8_small x : 0 <= x < 256 -> wrap8 x = x.
Proof. intros H. unfold wrap8. apply Z.mod_small. lia. Qed.

Lemma wrap16_small x : 0 <= x < 65536 -> wrap16 x = x.
Proof. intros H. unfold wrap16. apply Z.mod_small. lia. Qed.

Lemma wrap16_range x : 0 <= wrap16 x < 65536.
Proof. unfold wrap16. apply Z.mod_pos_bound. lia. Qed.

Lemma wrap16_pred x : 0 < x < 65536 -> wrap16 (x - 1) = x - 1.
Proof. intros H. apply wrap16_small. lia. Qed.

(* ===================================================================== *)
(** * can.c: the bit timing table and its search *)
(* ===================================================================== *)

Import Can.

Lemma canTiming_bounds : Forall entry_bounds canTiming.
Proof. unfold canTiming, entry_bounds, total_quanta. repeat constructor; simpl; lia. Qed.

Lemma canTiming_sorted :
  StronglySorted (fun a b => total_quanta a < total_quanta b) canTiming.
Proof.
  unfold canTiming.
  repeat (apply SSorted_cons; [| repeat constructor; unfold total_quanta; simpl; lia]).
  constructor.
Qed.

Lemma StronglySorted_lookup_lt {A} (R : A -> A -> Prop) (l : list A) :
  StronglySorted R l ->
  forall (i j : nat) (x y : A),
    (i < j)%nat -> l !! i = Some x -> l !! j = Some y -> R x y.
Proof.
  induction 1 as [| a l Hs IH Hall]; intros i j x y Hij Hi Hj.
  - destruct i; discriminate.
  - destruct j as [| j]; [lia |].
    destruct i as [| i]; simpl in *.
    + injection Hi as <-.
      rewrite Forall_forall in Hall. apply Hall.
      eapply list_elem_of_lookup_2. exact Hj.
    + apply (IH i j); [lia | assumption | assumption].
Qed.

(** C8: every entry of [canTiming] has tseg1 in 1..16 and tseg2 in 1..8,
    and the entries are in strictly ascending order of their total number
    of time quanta (tseg1 + tseg2 + 1). *)
Theorem canTiming_ranges_and_ascending :
  Forall (fun e => 1 <= tseg1 e <= 16 /\ 1 <= tseg2 e <= 8) canTiming /\
  (forall (i j : nat) (ei ej : tCanBusTiming),
      canTiming !! i = Some ei -> canTiming !! j = Some ej ->
      (i < j)%nat -> tseg1 ei + tseg2 ei + 1 < tseg1 ej + tseg2 ej + 1).
Proof.
  split.
  - eapply Forall_impl; [exact canTiming_bounds |].
    unfold entry_bounds. intros e He. simpl in *. lia.
  - intros i j ei ej Hi Hj Hij.
    exact (StronglySorted_lookup_lt _ _ canTiming_sorted i j ei ej Hij Hi Hj).
Qed.

(** One round of the loop, in terms of the mathematical quotient: under
    the stated bounds the C division is the floor division, the divisor is
    not zero and the quotient is stored in the 16-bit prescaler unchanged. *)
Lemma round_arith (clk baud : Z) (e : tCanBusTiming) :
  0 <= clk -> 0 < baud -> clk / 2 < 524288 * baud -> entry_bounds e ->
  (baud * (tseg1 e + tseg2 e + 1) =? 0) = false /\
  Z.rem (Z.quot clk 2) (baud * (tseg1 e + tseg2 e + 1))
    = (clk / 2) mod (baud * total_quanta e) /\
  wrap16 (Z.quot (Z.quot clk 2) (baud * (tseg1 e + tseg2 e + 1)))
    = quotient clk baud e /\
  0 <= quotient clk baud e.
Proof.
  intros Hclk Hbaud Hfit (H1 & H2 & H3).
  unfold quotient, total_quanta in *.
  set (d := baud * (tseg1 e + tseg2 e + 1)).
  assert (Hd : 0 < d) by (unfold d; nia).
  assert (Hx : 0 <= clk / 2) by (apply Z.div_pos; lia).
  rewrite (Z.quot_div_nonneg clk 2) by lia.
  rewrite Z.rem_mod_nonneg by lia.
  rewrite Z.quot_div_nonneg by lia.
  assert (Hq0 : 0 <= clk / 2 / d) by (apply Z.div_pos; lia).
  assert (Hq1 : clk / 2 / d < 65536).
  { apply Z.div_lt_upper_bound; [lia |]. unfold d. nia. }
  repeat split.
  - apply Z.eqb_neq. lia.
  - apply wrap16_small. lia.
  - exact Hq0.
Qed.

(** The search, seen from any point of the table onwards: either it stops
    at the first satisfying entry and delivers that entry's values, or no
    entry satisfies, it answers [false], the two segment outputs are
    untouched and the prescaler output is either untouched or holds a
    quotient that failed the range test. *)
Lemma CanGetSpeedConfig_loop_spec (clk baud : Z) :
  0 <= clk -> 0 < baud -> clk / 2 < 524288 * baud ->
  forall (todo : list tCanBusTiming) (o : speed_out),
    Forall entry_bounds todo ->
    (exists before e after,
        todo = before ++ e :: after /\
        Forall (fun e' => ~ satisfies clk baud e') before /\
        satisfies clk baud e /\
        CanGetSpeedConfig_loop clk todo baud o
          = Some (true, mkOut (quotient clk baud e) (tseg1 e) (tseg2 e)))
    \/
    (Forall (fun e' => ~ satisfies clk baud e') todo /\
     exists p,
        CanGetSpeedConfig_loop clk todo baud o
          = Some (false, mkOut p (out_tseg1 o) (out_tseg2 o)) /\
        (p = out_prescaler o \/ ~ 1 <= p <= 1024)).
Proof.
  intros Hclk Hbaud Hfit.
  induction todo as [| e rest IH]; intros o Hb.
  - right. split; [constructor |].
    exists (out_prescaler o). destruct o; simpl. auto.
  - apply Forall_cons in Hb as [He Hrest].
    destruct (round_arith clk baud e Hclk Hbaud Hfit He) as (Hd & Hrem & Hq & Hq0).
    cbn [CanGetSpeedConfig_loop]. rewrite Hd, Hrem.
    unfold set_prescaler. cbn [out_prescaler out_tseg1 out_tseg2]. rewrite Hq.
    destruct ((clk / 2) mod (baud * total_quanta e) =? 0) eqn:Hdiv.
    + apply Z.eqb_eq in Hdiv.
      destruct ((quotient clk baud e >? 0) && (quotient clk baud e <=? 1024)) eqn:Hrange.
      * apply andb_true_iff in Hrange as [Hlo Hhi].
        apply Z.gtb_lt in Hlo. apply Z.leb_le in Hhi.
        left. exists [], e, rest. repeat split; try lia.
        -- constructor.
        -- exact Hdiv.
        -- unfold set_tsegs. cbn [out_prescaler].
           destruct He as (H1 & H2 & _).
           rewrite !wrap8_small by lia. reflexivity.
      * assert (Hnot : ~ satisfies clk baud e).
        { intros [_ [Hlo Hhi]]. apply andb_false_iff in Hrange as [Hr | Hr].
          - rewrite Z.gtb_ltb in Hr. apply Z.ltb_ge in Hr. lia.
          - apply Z.leb_gt in Hr. lia. }
        destruct (IH (mkOut (quotient clk baud e) (out_tseg1 o) (out_tseg2 o)) Hrest)
          as [(before & e1 & after & -> & Hbefore & Hsat & Hres)
             | (Hnone & p & Hres & Hp)].
        -- left. exists (e :: before), e1, after. repeat split; try apply Hsat.
           ++ constructor; assumption.
           ++ exact Hres.
        -- right. split; [constructor; assumption |].
           exists p. split; [exact Hres |].
           cbn [out_prescaler] in Hp. destruct Hp as [-> | Hp]; [| right; exact Hp].
           right. intros Hin. apply Hnot. split; [exact Hdiv | exact Hin].
    + assert (Hnot : ~ satisfies clk baud e).
      { intros [Hdiv' _]. unfold divides_evenly in Hdiv'.
        apply Z.eqb_neq in Hdiv. contradiction. }
      destruct (IH o Hrest)
        as [(before & e1 & after & -> & Hbefore & Hsat & Hres)
           | (Hnone & p & Hres & Hp)].
      * left. exists (e :: before), e1, after. repeat split; try apply Hsat.
        -- constructor; assumption.
        -- exact Hres.
      * right. split; [constructor; assumption |].
        exists p. split; [exact Hres | exact Hp].
Qed.

Lemma satisfiesb_spec (clk baud : Z) (e : tCanBusTiming) :
  satisfiesb clk baud e = true <-> satisfies clk baud e.
Proof.
  unfold satisfiesb, satisfies, divides_evenly.
  rewrite !andb_true_iff, Z.eqb_eq, !Z.leb_le. tauto.
Qed.

Lemma none_satisfy_check (clk baud : Z) :
  forallb (fun e => negb (satisfiesb clk baud e)) canTiming = true ->
  forall e, In e canTiming -> ~ satisfies clk baud e.
Proof.
  intros Hall e He Hsat.
  rewrite forallb_forall in Hall. specialize (Hall e He).
  apply satisfiesb_spec in Hsat. rewrite Hsat in Hall. discriminate.
Qed.

(** A satisfying entry bounds the clock: the quotients of all entries then
    fit the 16-bit prescaler, and the baudrate is not zero. *)
Lemma satisfies_fits (clk baud : Z) (e : tCanBusTiming) :
  0 <= clk -> 0 <= baud -> entry_bounds e -> satisfies clk baud e ->
  0 < baud /\ clk / 2 < 524288 * baud.
Proof.
  intros Hclk Hbaud (H1 & H2 & H3) [Hdiv [Hlo Hhi]].
  unfold divides_evenly, quotient in *.
  assert (Hb : 0 < baud).
  { destruct (Z.eq_dec baud 0) as [-> |]; [| lia].
    rewrite Z.mul_0_l, Z.div_0_r in Hlo. lia. }
  split; [exact Hb |].
  set (d := baud * total_quanta e) in *.
  assert (Hd : 0 < d) by (unfold d; nia).
  assert (Hx : clk / 2 = d * (clk / 2 / d)).
  { apply Z.div_exact; [lia | exact Hdiv]. }
  set (q := clk / 2 / d) in *.
  assert (Hq : total_quanta e * q <= 25 * 1024).
  { apply Z.mul_le_mono_nonneg; lia. }
  rewrite Hx. unfold d. rewrite <- Z.mul_assoc.
  apply Z.le_lt_trans with (baud * (25 * 1024)); [| lia].
  apply Z.mul_le_mono_nonneg_l; lia.
Qed.

(** C3: when some entry of the table satisfies the divisibility test and
    has its quotient in [1,1024], [CanGetSpeedConfig] returns true and
    delivers the quotient, tseg1 and tseg2 of the first such entry in table
    order: the entries before it do not satisfy the test. *)
Theorem CanGetSpeedConfig_first_match (clk baud : Z) (o : speed_out) :
  0 <= clk -> 0 <= baud ->
  (exists e, In e canTiming /\ satisfies clk baud e) ->
  exists before e after,
    canTiming = before ++ e :: after /\
    Forall (fun e' => ~ satisfies clk baud e') before /\
    satisfies clk baud e /\
    CanGetSpeedConfig clk baud o
      = Some (true, mkOut (quotient clk baud e) (tseg1 e) (tseg2 e)).
Proof.
  intros Hclk Hbaud (e & He & Hsat).
  assert (Hbe : entry_bounds e).
  { pose proof canTiming_bounds as Hall. rewrite Forall_forall in Hall.
    apply Hall, list_elem_of_In, He. }
  destruct (satisfies_fits clk baud e Hclk Hbaud Hbe Hsat) as [Hb Hfit].
  destruct (CanGetSpeedConfig_loop_spec clk baud Hclk Hb Hfit canTiming o canTiming_bounds)
    as [Hfound | [Hnone _]].
  - exact Hfound.
  - rewrite Forall_forall in Hnone. exfalso.
    apply (Hnone e); [apply list_elem_of_In, He | exact Hsat].
Qed.

Lemma CanGetSpeedConfig_first_match_witness :
  exists before e after,
    canTiming = before ++ e :: after /\
    Forall (fun e' => ~ satisfies 72000 1000 e') before /\
    satisfies 72000 1000 e /\
    CanGetSpeedConfig 72000 1000 (mkOut 0 0 0)
      = Some (true, mkOut (quotient 72000 1000 e) (tseg1 e) (tseg2 e)).
Proof.
  apply (CanGetSpeedConfig_first_match 72000 1000 (mkOut 0 0 0)); [lia | lia |].
  exists (mkTiming 6 2). split.
  - simpl. tauto.
  - apply satisfiesb_spec. vm_compute. reflexivity.
Defined.

(** A false answer of the search, seen from any point of the table
    onwards, for a clock whose quotients fit the 16-bit prescaler: the two
    segment outputs are untouched; the prescaler output is untouched when
    no entry passed the divisibility test, and otherwise holds the quotient
    of the last entry that passed it, a value outside [1,1024]. *)
Lemma CanGetSpeedConfig_loop_false_spec (clk baud : Z) :
  0 <= clk -> 0 < baud -> clk / 2 < 524288 * baud ->
  forall (todo : list tCanBusTiming) (o o' : speed_out),
    Forall entry_bounds todo ->
    CanGetSpeedConfig_loop clk todo baud o = Some (false, o') ->
    out_tseg1 o' = out_tseg1 o /\ out_tseg2 o' = out_tseg2 o /\
    ((Forall (fun e => ~ divides_evenly clk baud e) todo /\
      out_prescaler o' = out_prescaler o)
     \/
     (exists before e after,
        todo = before ++ e :: after /\
        divides_evenly clk baud e /\
        Forall (fun e' => ~ divides_evenly clk baud e') after /\
        out_prescaler o' = quotient clk baud e /\
        ~ 1 <= quotient clk baud e <= 1024)).
Proof.
  intros Hclk Hbaud Hfit.
  induction todo as [| e rest IH]; intros o o' Hb Hrun.
  - injection Hrun as <-. split; [reflexivity |]. split; [reflexivity |].
    left. split; [constructor | reflexivity].
  - apply Forall_cons in Hb as [He Hrest].
    destruct (round_arith clk baud e Hclk Hbaud Hfit He) as (Hd & Hrem & Hq & Hq0).
    cbn [CanGetSpeedConfig_loop] in Hrun. rewrite Hd, Hrem in Hrun.
    unfold set_prescaler in Hrun. cbn [out_prescaler] in Hrun. rewrite Hq in Hrun.
    destruct ((clk / 2) mod (baud * total_quanta e) =? 0) eqn:Hdiv.
    + apply Z.eqb_eq in Hdiv.
      destruct ((quotient clk baud e >? 0) && (quotient clk baud e <=? 1024))
        eqn:Hrange; [discriminate |].
      assert (Hout : ~ 1 <= quotient clk baud e <= 1024).
      { intros [Hlo Hhi]. apply andb_false_iff in Hrange as [Hr | Hr].
        - rewrite Z.gtb_ltb in Hr. apply Z.ltb_ge in Hr. lia.
        - apply Z.leb_gt in Hr. lia. }
      apply IH in Hrun as (Ht1 & Ht2 & Hp); [| exact Hrest].
      cbn [out_tseg1 out_tseg2 out_prescaler] in Ht1, Ht2, Hp.
      split; [exact Ht1 |]. split; [exact Ht2 |]. right.
      destruct Hp as [[Hnone Hp] | (before & e1 & after & -> & Hd1 & Hafter & Hp & Ho)].
      * exists [], e, rest. repeat split; try assumption; try lia.
      * exists (e :: before), e1, after. repeat split; try assumption; try lia.
    + apply Z.eqb_neq in Hdiv.
      apply IH in Hrun as (Ht1 & Ht2 & Hp); [| exact Hrest].
      split; [exact Ht1 |]. split; [exact Ht2 |].
      destruct Hp as [[Hnone Hp] | (before & e1 & after & -> & Hd1 & Hafter & Hp & Ho)].
      * left. split; [constructor; assumption | exact Hp].
      * right. exists (e :: before), e1, after. repeat split; try assumption; try lia.
Qed.

(** C4, as the code has it: for a baudrate of at least 1 and a system
    clock of 0 to 1048575 kHz, when no entry satisfies both tests
    [CanGetSpeedConfig] returns false and leaves tseg1 and tseg2 as they
    were.  The prescaler is as it was when no entry passed the divisibility
    test; otherwise it holds the quotient of the last entry, in table
    order, that passed it, a value outside [1,1024]. *)
Theorem CanGetSpeedConfig_no_match (clk baud : Z) (o : speed_out) :
  0 <= clk < 1048576 -> 1 <= baud ->
  (forall e, In e canTiming -> ~ satisfies clk baud e) ->
  exists p,
    CanGetSpeedConfig clk baud o
      = Some (false, mkOut p (out_tseg1 o) (out_tseg2 o)) /\
    (((forall e, In e canTiming -> ~ divides_evenly clk baud e) /\
      p = out_prescaler o)
     \/
     (exists before e after,
        canTiming = before ++ e :: after /\
        divides_evenly clk baud e /\
        Forall (fun e' => ~ divides_evenly clk baud e') after /\
        p = quotient clk baud e /\
        ~ 1 <= p <= 1024)).
Proof.
  intros Hclk Hbaud Hnone.
  assert (Hfit : clk / 2 < 524288 * baud).
  { assert (clk / 2 < 524288) by (apply Z.div_lt_upper_bound; lia). lia. }
  assert (Hb : 0 < baud) by lia.
  destruct (CanGetSpeedConfig_loop_spec clk baud (proj1 Hclk) Hb Hfit canTiming o
              canTiming_bounds)
    as [(before & e & after & Heq & _ & Hsat & _) | (_ & p & Hres & _)].
  - exfalso. apply (Hnone e); [| exact Hsat].
    rewrite Heq. apply in_or_app. right. left. reflexivity.
  - exists p. split; [exact Hres |].
    apply (CanGetSpeedConfig_loop_false_spec clk baud (proj1 Hclk) Hb Hfit)
      in Hres as (_ & _ & Hp); [| exact canTiming_bounds].
    cbn [out_prescaler] in Hp.
    destruct Hp as [[Hno Hp] | (bf & e & af & Heq & Hd & Haf & Hp & Ho)].
    + left. split; [| exact Hp].
      intros e He. rewrite Forall_forall in Hno.
      apply Hno, list_elem_of_In, He.
    + right. exists bf, e, af. rewrite Hp.
      split; [exact Heq |]. split; [exact Hd |]. split; [exact Haf |].
      split; [reflexivity | exact Ho].
Qed.

Lemma CanGetSpeedConfig_no_match_witness :
  exists p,
    CanGetSpeedConfig 72000 1 (mkOut 3 0 0) = Some (false, mkOut p 0 0) /\
    (((forall e, In e canTiming -> ~ divides_evenly 72000 1 e) /\ p = 3)
     \/
     (exists before e after,
        canTiming = before ++ e :: after /\
        divides_evenly 72000 1 e /\
        Forall (fun e' => ~ divides_evenly 72000 1 e') after /\
        p = quotient 72000 1 e /\
        ~ 1 <= p <= 1024)).
Proof.
  apply (CanGetSpeedConfig_no_match 72000 1 (mkOut 3 0 0)).
  - lia.
  - lia.
  - apply none_satisfy_check. vm_compute. reflexivity.
Defined.

(** C4 fails as stated.  With baud 1 and a system clock of 72000 kHz no
    entry satisfies both tests and false is returned, but the prescaler
    output has been overwritten: it holds 1440, the quotient of the entry
    (16,8), the last one that passed the divisibility test. *)
Lemma CanGetSpeedConfig_no_match_counterexample :
  (forall e, In e canTiming -> ~ satisfies 72000 1 e) /\
  CanGetSpeedConfig 72000 1 (mkOut 0 0 0) = Some (false, mkOut 1440 0 0) /\
  divides_evenly 72000 1 (mkTiming 16 8) /\
  quotient 72000 1 (mkTiming 16 8) = 1440.
Proof.
  split; [apply none_satisfy_check; vm_compute; reflexivity |].
  split; [reflexivity |]. split; reflexivity.
Qed.

(** C10: whenever [CanGetSpeedConfig] returns true, the outputs give back
    the rate exactly, prescaler * baud * (tseg1 + tseg2 + 1) = clk/2, with
    prescaler in [1,1024], tseg1 in [5,16] and tseg2 in [2,8].  [clk] is the
    system clock of the port in kHz, any value from 0 to 1048575, and
    [baud] any value of its unsigned type. *)
Theorem CanGetSpeedConfig_exact_rate (clk baud : Z) (o o' : speed_out) :
  0 <= clk < 1048576 -> 0 <= baud ->
  CanGetSpeedConfig clk baud o = Some (true, o') ->
  out_prescaler o' * baud * (out_tseg1 o' + out_tseg2 o' + 1) = clk / 2 /\
  1 <= out_prescaler o' <= 1024 /\
  5 <= out_tseg1 o' <= 16 /\
  2 <= out_tseg2 o' <= 8.
Proof.
  intros [Hclk Hmax] Hbaud Hres.
  destruct (Z.eq_dec baud 0) as [-> | Hne]; [discriminate Hres |].
  assert (Hb : 0 < baud) by lia.
  assert (Hfit : clk / 2 < 524288 * baud).
  { assert (clk / 2 < 524288) by (apply Z.div_lt_upper_bound; lia). lia. }
  destruct (CanGetSpeedConfig_loop_spec clk baud Hclk Hb Hfit canTiming o canTiming_bounds)
    as [(before & e & after & Heq & _ & Hsat & Hret) | (_ & p & Hret & _)];
    unfold CanGetSpeedConfig in Hres; rewrite Hret in Hres; [| discriminate].
  injection Hres as <-. cbn [out_prescaler out_tseg1 out_tseg2].
  assert (Hbe : entry_bounds e).
  { pose proof canTiming_bounds as Hall. rewrite Forall_forall in Hall.
    apply Hall. rewrite Heq. apply list_elem_of_In, in_or_app. right. left. reflexivity. }
  destruct Hbe as (H1 & H2 & H3). destruct Hsat as [Hdiv Hq].
  unfold divides_evenly, quotient, total_quanta in *.
  repeat split; try lia.
  set (d := baud * (tseg1 e + tseg2 e + 1)) in *.
  assert (Hx : clk / 2 = d * (clk / 2 / d)).
  { apply Z.div_exact; [unfold d; nia | exact Hdiv]. }
  rewrite Hx at 2. unfold d. ring.
Qed.

Lemma CanGetSpeedConfig_exact_rate_witness :
  CanGetSpeedConfig 72000 500 (mkOut 0 0 0) = Some (true, mkOut 9 5 2) /\
  9 * 500 * (5 + 2 + 1) = 72000 / 2 /\
  1 <= 9 <= 1024 /\ 5 <= 5 <= 16 /\ 2 <= 2 <= 8.
Proof.
  split; [reflexivity |].
  apply (CanGetSpeedConfig_exact_rate 72000 500 (mkOut 0 0 0) (mkOut 9 5 2)).
  - lia.
  - lia.
  - reflexivity.
Defined.

(* ===================================================================== *)
(** * can.c: reception *)
(* ===================================================================== *)

Lemma wrap32_range x : 0 <= wrap32 x < 2 ^ 32.
Proof. unfold wrap32. apply Z.mod_pos_bound. lia. Qed.

(** Masking with 0x80000000 isolates bit 31. *)
Lemma land_bit31_zero (x : Z) :
  (Z.land x 0x80000000 =? 0) = negb (Z.testbit x 31).
Proof.
  change 0x80000000 with (2 ^ 31).
  destruct (Z.testbit x 31) eqn:Hb; simpl.
  - apply Z.eqb_neq. intros H0.
    assert (Ht : Z.testbit (Z.land x (2 ^ 31)) 31 = true).
    { rewrite Z.land_spec, Hb, Z.pow2_bits_true by lia. reflexivity. }
    rewrite H0 in Ht. rewrite Z.bits_0 in Ht. discriminate.
  - apply Z.eqb_eq. apply Z.bits_inj'. intros n Hn.
    rewrite Z.land_spec, Z.bits_0, Z.pow2_bits_eqb by lia.
    destruct (Z.eqb_spec 31 n) as [<- |]; [rewrite Hb; reflexivity |].
    apply andb_false_r.
Qed.

(** [rxMsgId &= ~0x80000000] keeps the low 31 bits. *)
Lemma land_clear_bit31 (x : Z) :
  Z.land x (wrap32 (Z.lnot 0x80000000)) = x mod 2 ^ 31.
Proof.
  change (wrap32 (Z.lnot 0x80000000)) with (Z.ones 31).
  apply Z.land_ones. lia.
Qed.

(** A 32-bit value with bit 31 clear is below 2^31. *)
Lemma bit31_clear_small (x : Z) :
  0 <= x < 2 ^ 32 -> Z.testbit x 31 = false -> x mod 2 ^ 31 = x.
Proof.
  intros Hx Hb. apply Z.mod_small. split; [lia |].
  destruct (Z_lt_le_dec x (2 ^ 31)) as [Hlt | Hge]; [exact Hlt | exfalso].
  assert (Ht : Z.testbit x 31 = true).
  { apply Z.testbit_true; [lia |].
    assert (Hq : x / 2 ^ 31 = 1).
    { symmetry. apply (Z.div_unique x (2 ^ 31) 1 (x - 2 ^ 31)); lia. }
    rewrite Hq. reflexivity. }
  congruence.
Qed.

(** What the identifier test of [CanReceivePacket] decides. *)
Lemma packetIdMatches_spec (rxid std ext : Z) (msg : CanRxMsgTypeDef) :
  (if Z.land (wrap32 rxid) 0x80000000 =? 0
   then (StdId msg =? wrap32 rxid) && (IDE msg =? std)
   else (ExtId msg =? Z.land (wrap32 rxid) (wrap32 (Z.lnot 0x80000000)))
        && (IDE msg =? ext)) = true
  <-> frame_matches rxid std ext msg.
Proof.
  unfold frame_matches, filter_extended, filter_ident.
  rewrite land_bit31_zero, land_clear_bit31.
  destruct (Z.testbit (wrap32 rxid) 31) eqn:Hb; simpl;
    rewrite andb_true_iff, !Z.eqb_eq.
  - tauto.
  - rewrite (bit31_clear_small _ (wrap32_range rxid) Hb). tauto.
Qed.

(** The copy loop, when it ends: the array keeps its length, the bytes
    from [byteIdx] up to [DLC] are those of the frame, the others are as
    before, and [DLC] is below 256. *)
Lemma copy_loop_spec (fuel : nat) :
  forall (i : Z) (msg : CanRxMsgTypeDef) (data data' : list Z),
    0 <= i -> i + Z.of_nat fuel <= 256 ->
    copy_loop fuel i msg data = Some data' ->
    length data' = length data /\
    DLC msg < i + Z.of_nat fuel /\
    (forall k : nat, i <= Z.of_nat k < DLC msg ->
       data' !! k = Data msg !! k /\ is_Some (Data msg !! k)) /\
    (forall k : nat, Z.of_nat k < i \/ DLC msg <= Z.of_nat k ->
       data' !! k = data !! k).
Proof.
  induction fuel as [| fuel IH]; intros i msg data data' Hi Hfuel Hrun;
    [discriminate |].
  cbn [copy_loop] in Hrun.
  destruct (i <? DLC msg) eqn:Hlt.
  - apply Z.ltb_lt in Hlt.
    destruct (Data msg !! Z.to_nat i) as [b |] eqn:Hb; [| discriminate].
    destruct (Z.to_nat i <? length data)%nat eqn:Hin; [| discriminate].
    apply Nat.ltb_lt in Hin.
    destruct fuel as [| fuel']; [discriminate |].
    rewrite wrap8_small in Hrun by lia.
    apply IH in Hrun as (Hlen & Hdlc & Hnew & Hold); [| lia | lia].
    rewrite length_insert in Hlen.
    split; [exact Hlen |]. split; [lia |]. split.
    + intros k Hk. destruct (Z.eq_dec (Z.of_nat k) i) as [Heq | Hne].
      * assert (Hk' : k = Z.to_nat i) by lia. subst k.
        rewrite Hold by lia. rewrite list_lookup_insert_eq by lia.
        rewrite Hb. split; [reflexivity | eexists; reflexivity].
      * apply Hnew. lia.
    + intros k Hk. rewrite Hold by lia.
      apply list_lookup_insert_ne. lia.
  - apply Z.ltb_ge in Hlt. injection Hrun as <-.
    split; [reflexivity |]. split; [lia |]. split.
    + intros k Hk. lia.
    + reflexivity.
Qed.

(** The copy loop ends when the frame's [DLC] bytes are within [Data] and
    within the caller's array. *)
Lemma copy_loop_total (fuel : nat) :
  forall (i : Z) (msg : CanRxMsgTypeDef) (data : list Z),
    0 <= i <= DLC msg ->
    DLC msg < i + Z.of_nat fuel -> i + Z.of_nat fuel <= 256 ->
    DLC msg <= Z.of_nat (length (Data msg)) ->
    DLC msg <= Z.of_nat (length data) ->
    exists data', copy_loop fuel i msg data = Some data'.
Proof.
  induction fuel as [| fuel IH]; intros i msg data Hi Hdlc Hfuel Hsrc Hdst.
  - cbn [copy_loop]. exfalso. lia.
  - cbn [copy_loop]. destruct (i <? DLC msg) eqn:Hlt; [| eexists; reflexivity].
    apply Z.ltb_lt in Hlt.
    destruct (lookup_lt_is_Some_2 (Data msg) (Z.to_nat i)) as [b Hb]; [lia |].
    rewrite Hb.
    replace (Z.to_nat i <? length data)%nat with true
      by (symmetry; apply Nat.ltb_lt; lia).
    rewrite wrap8_small by lia.
    apply IH; rewrite ?length_insert; lia.
Qed.

(** C6: [CanReceivePacket] returns true only for a pending frame whose
    identifier width (standard or extended, as chosen by bit 31 of the
    configured receive identifier) and identifier value both equal the
    configured ones; a frame that differs in either is not handed to the
    caller. *)
Theorem CanReceivePacket_only_matching (rxid std ext : Z)
    (st : HAL_StatusTypeDef) (msg : CanRxMsgTypeDef) (o o' : rx_out) :
  CanReceivePacket rxid std ext (st, msg) o = Some (true, o') ->
  st = HAL_OK /\ frame_matches rxid std ext msg.
Proof.
  unfold CanReceivePacket. cbn [fst snd].
  destruct st; try discriminate.
  intros H. split; [reflexivity |].
  apply packetIdMatches_spec.
  match type of H with
  | (if ?c then _ else _) = _ => destruct c; [reflexivity | discriminate]
  end.
Qed.

Lemma CanReceivePacket_only_matching_witness :
  CanReceivePacket 0x80000667 0 4
      (HAL_OK, mkRxMsg 0 0x667 4 3 [17; 34; 51; 0; 0; 0; 0; 0])
      (mkRxOut [0; 0; 0; 0; 0; 0; 0; 0] 0)
    = Some (true, mkRxOut [17; 34; 51; 0; 0; 0; 0; 0] 3) /\
  HAL_OK = HAL_OK /\
  frame_matches 0x80000667 0 4 (mkRxMsg 0 0x667 4 3 [17; 34; 51; 0; 0; 0; 0; 0]).
Proof.
  split; [reflexivity |].
  apply (CanReceivePacket_only_matching 0x80000667 0 4 HAL_OK
           (mkRxMsg 0 0x667 4 3 [17; 34; 51; 0; 0; 0; 0; 0])
           (mkRxOut [0; 0; 0; 0; 0; 0; 0; 0] 0)
           (mkRxOut [17; 34; 51; 0; 0; 0; 0; 0] 3)).
  reflexivity.
Defined.

(** The other direction: a pending frame that does not match, and a poll
    that finds no frame, both end in [false]. *)
Lemma CanReceivePacket_mismatch_dropped (rxid std ext : Z)
    (msg : CanRxMsgTypeDef) (o : rx_out) :
  ~ frame_matches rxid std ext msg ->
  CanReceivePacket rxid std ext (HAL_OK, msg) o = Some (false, o).
Proof.
  intros Hno. unfold CanReceivePacket. cbn [fst snd].
  match goal with
  | |- (if ?c then _ else _) = _ => destruct c eqn:Hc; [| reflexivity]
  end.
  exfalso. apply Hno, packetIdMatches_spec, Hc.
Qed.

Lemma CanReceivePacket_nothing_pending (rxid std ext : Z)
    (st : HAL_StatusTypeDef) (msg : CanRxMsgTypeDef) (o : rx_out) :
  st <> HAL_OK ->
  CanReceivePacket rxid std ext (st, msg) o = Some (false, o).
Proof. intros Hst. unfold CanReceivePacket. destruct st; [contradiction | | |]; reflexivity. Qed.

(** X4: what a true return of [CanReceivePacket] delivers: [len] is the
    frame's [DLC], the first [DLC] bytes of [data] are the frame's data
    bytes, and the rest of [data] is as it was. *)
Lemma CanReceivePacket_payload (rxid std ext : Z)
    (st : HAL_StatusTypeDef) (msg : CanRxMsgTypeDef) (o o' : rx_out) :
  0 <= DLC msg ->
  CanReceivePacket rxid std ext (st, msg) o = Some (true, o') ->
  out_len o' = DLC msg /\
  length (out_data o') = length (out_data o) /\
  (forall k : nat, Z.of_nat k < DLC msg ->
     out_data o' !! k = Data msg !! k /\ is_Some (Data msg !! k)) /\
  (forall k : nat, DLC msg <= Z.of_nat k ->
     out_data o' !! k = out_data o !! k).
Proof.
  intros Hdlc. unfold CanReceivePacket. cbn [fst snd].
  destruct st; try discriminate.
  match goal with
  | |- (if ?c then _ else _) = _ -> _ => destruct c; [| discriminate]
  end.
  destruct (copy_loop 256 0 msg (out_data o)) as [data' |] eqn:Hcopy;
    [| discriminate].
  intros H. injection H as <-. cbn [out_len out_data].
  apply copy_loop_spec in Hcopy as (Hlen & Hlt & Hnew & Hold); [| lia | lia].
  split; [apply wrap8_small; lia |]. split; [exact Hlen |]. split.
  - intros k Hk. apply Hnew. lia.
  - intros k Hk. apply Hold. lia.
Qed.

Lemma CanReceivePacket_payload_witness :
  CanReceivePacket 0x667 0 4
      (HAL_OK, mkRxMsg 0x667 0 0 3 [17; 34; 51; 0; 0; 0; 0; 0])
      (mkRxOut [7; 7; 7; 7; 7] 0)
    = Some (true, mkRxOut [17; 34; 51; 7; 7] 3) /\
  out_len (mkRxOut [17; 34; 51; 7; 7] 3) = 3 /\
  length (out_data (mkRxOut [17; 34; 51; 7; 7] 3))
    = length (out_data (mkRxOut [7; 7; 7; 7; 7] 0)) /\
  (forall k : nat, Z.of_nat k < 3 ->
     [17; 34; 51; 7; 7] !! k = [17; 34; 51; 0; 0; 0; 0; 0] !! k /\
     is_Some ([17; 34; 51; 0; 0; 0; 0; 0] !! k)) /\
  (forall k : nat, 3 <= Z.of_nat k ->
     [17; 34; 51; 7; 7] !! k = [7; 7; 7; 7; 7] !! k).
Proof.
  split; [reflexivity |].
  apply (CanReceivePacket_payload 0x667 0 4 HAL_OK
           (mkRxMsg 0x667 0 0 3 [17; 34; 51; 0; 0; 0; 0; 0])
           (mkRxOut [7; 7; 7; 7; 7] 0)
           (mkRxOut [17; 34; 51; 7; 7] 3)).
  - simpl. lia.
  - reflexivity.
Defined.

(** X5: a pending frame that matches the filter, with at most 8 data
    bytes, is delivered (true is returned) whenever the caller's array has
    room for its [DLC] bytes. *)
Lemma CanReceivePacket_accepts (rxid std ext : Z)
    (msg : CanRxMsgTypeDef) (o : rx_out) :
  frame_matches rxid std ext msg ->
  length (Data msg) = 8%nat -> 0 <= DLC msg <= 8 ->
  DLC msg <= Z.of_nat (length (out_data o)) ->
  exists o', CanReceivePacket rxid std ext (HAL_OK, msg) o = Some (true, o').
Proof.
  intros Hm Hdata Hdlc Hroom. unfold CanReceivePacket. cbn [fst snd].
  apply packetIdMatches_spec in Hm. rewrite Hm.
  destruct (copy_loop_total 256 0 msg (out_data o)) as [data' Hcopy]; try lia.
  rewrite Hcopy. eexists. reflexivity.
Qed.

Lemma CanReceivePacket_accepts_witness :
  exists o',
    CanReceivePacket 0x80000667 0 4
        (HAL_OK, mkRxMsg 0 0x667 4 8 [1; 2; 3; 4; 5; 6; 7; 8])
        (mkRxOut [0; 0; 0; 0; 0; 0; 0; 0] 0)
      = Some (true, o').
Proof.
  apply (CanReceivePacket_accepts 0x80000667 0 4
           (mkRxMsg 0 0x667 4 8 [1; 2; 3; 4; 5; 6; 7; 8])
           (mkRxOut [0; 0; 0; 0; 0; 0; 0; 0] 0)).
  - split; reflexivity.
  - reflexivity.
  - simpl. lia.
  - simpl. lia.
Defined.

(** When the copy loop ends after at least one round, all [DLC] bytes were
    within [Data] and within the caller's array. *)
Lemma copy_loop_room (fuel : nat) :
  forall (i : Z) (msg : CanRxMsgTypeDef) (data data' : list Z),
    0 <= i < DLC msg -> i + Z.of_nat fuel <= 256 ->
    copy_loop fuel i msg data = Some data' ->
    DLC msg <= Z.of_nat (length (Data msg)) /\
    DLC msg <= Z.of_nat (length data).
Proof.
  induction fuel as [| fuel IH]; intros i msg data data' Hi Hfuel Hrun;
    [discriminate |].
  cbn [copy_loop] in Hrun.
  replace (i <? DLC msg) with true in Hrun by (symmetry; apply Z.ltb_lt; lia).
  destruct (Data msg !! Z.to_nat i) as [b |] eqn:Hb; [| discriminate].
  destruct (Z.to_nat i <? length data)%nat eqn:Hin; [| discriminate].
  apply Nat.ltb_lt in Hin. apply lookup_lt_Some in Hb.
  destruct fuel as [| fuel']; [discriminate |].
  rewrite wrap8_small in Hrun by lia.
  destruct (Z_lt_le_dec (i + 1) (DLC msg)) as [Hmore | Hlast].
  - apply IH in Hrun; [| lia | lia].
    rewrite length_insert in Hrun. exact Hrun.
  - lia.
Qed.

(** X6: a matching frame whose [DLC] exceeds the 8 bytes of [Data] or
    the size of the caller's array makes the copy loop leave an array:
    [CanReceivePacket] has no defined result. *)
Theorem CanReceivePacket_needs_room (rxid std ext : Z)
    (msg : CanRxMsgTypeDef) (o : rx_out) :
  frame_matches rxid std ext msg ->
  length (Data msg) = 8%nat ->
  8 < DLC msg \/ Z.of_nat (length (out_data o)) < DLC msg ->
  CanReceivePacket rxid std ext (HAL_OK, msg) o = None.
Proof.
  intros Hm Hdata Hbig. unfold CanReceivePacket. cbn [fst snd].
  apply packetIdMatches_spec in Hm. rewrite Hm.
  destruct (copy_loop 256 0 msg (out_data o)) as [data' |] eqn:Hcopy;
    [| reflexivity].
  exfalso. apply copy_loop_room in Hcopy; lia.
Qed.

Lemma CanReceivePacket_needs_room_witness :
  CanReceivePacket 0x667 0 4
      (HAL_OK, mkRxMsg 0x667 0 0 9 [1; 2; 3; 4; 5; 6; 7; 8])
      (mkRxOut [0; 0; 0; 0; 0; 0; 0; 0; 0; 0; 0; 0] 0)
    = None.
Proof.
  apply (CanReceivePacket_needs_room 0x667 0 4
           (mkRxMsg 0x667 0 0 9 [1; 2; 3; 4; 5; 6; 7; 8])
           (mkRxOut [0; 0; 0; 0; 0; 0; 0; 0; 0; 0; 0; 0] 0)).
  - split; reflexivity.
  - reflexivity.
  - left. simpl. lia.
Defined.

(** C9: whenever [CanReceivePacket] returns false, the caller's [data]
    array and [len] are exactly as they were before the call. *)
Theorem CanReceivePacket_false_keeps_outputs (rxid std ext : Z)
    (hal : HAL_StatusTypeDef * CanRxMsgTypeDef) (o o' : rx_out) :
  CanReceivePacket rxid std ext hal o = Some (false, o') ->
  out_data o' = out_data o /\ out_len o' = out_len o.
Proof.
  unfold CanReceivePacket. destruct hal as [st msg]. cbn [fst snd].
  destruct st;
    try (intros H; injection H as <-; split; reflexivity).
  match goal with
  | |- (if ?c then _ else _) = _ -> _ => destruct c
  end.
  - destruct (copy_loop _ _ _ _); discriminate.
  - intros H; injection H as <-; split; reflexivity.
Qed.

Lemma CanReceivePacket_false_keeps_outputs_witness :
  CanReceivePacket 0x667 0 4
      (HAL_OK, mkRxMsg 0x123 0 0 2 [9; 9; 0; 0; 0; 0; 0; 0])
      (mkRxOut [1; 2; 3; 4; 5; 6; 7; 8] 5)
    = Some (false, mkRxOut [1; 2; 3; 4; 5; 6; 7; 8] 5) /\
  [1; 2; 3; 4; 5; 6; 7; 8] = [1; 2; 3; 4; 5; 6; 7; 8] /\ 5 = 5.
Proof.
  split; [reflexivity |].
  apply (CanReceivePacket_false_keeps_outputs 0x667 0 4
           (HAL_OK, mkRxMsg 0x123 0 0 2 [9; 9; 0; 0; 0; 0; 0; 0])
           (mkRxOut [1; 2; 3; 4; 5; 6; 7; 8] 5)
           (mkRxOut [1; 2; 3; 4; 5; 6; 7; 8] 5)).
  reflexivity.
Defined.

(* ===================================================================== *)
(** * cpu.c: hand-off to the user program *)
(* ===================================================================== *)

Import Cpu.

(** Runs a straight line of primitive operations and puts the log in
    normal form. *)
Ltac run_events :=
  unfold ComFree, TimerReset, CopService, CpuIrqEnable, CpuIrqDisable,
    write_reg, load32, load8, store8, query, call_ptr, emit, mret, M_ret;
  cbn [mem log negb]; rewrite <- ?app_assoc; cbn [app]; try reflexivity.

(** C2: when [NvmVerifyChecksum] answers false, [CpuStartUserProgram]
    returns to its caller in the very state it was called in: nothing is
    released or reset, no register is written, interrupts are not enabled
    and no call into the user program is made. *)
Theorem CpuStartUserProgram_invalid_image (hook com : Z)
    (verify start_hook : world -> bool) (base : Z) (w : world) :
  verify w = false ->
  CpuStartUserProgram hook com verify start_hook base w = Returned tt w.
Proof.
  intros Hv. unfold CpuStartUserProgram, query, mbind, M_bind.
  rewrite Hv. reflexivity.
Qed.

Lemma CpuStartUserProgram_invalid_image_witness :
  CpuStartUserProgram 1 1 (fun _ => false) (fun _ => true) 0x0C004000
      (mkWorld (fun _ => 0) [EvCpuIrqDisable])
    = Returned tt (mkWorld (fun _ => 0) [EvCpuIrqDisable]).
Proof.
  apply (CpuStartUserProgram_invalid_image 1 1 (fun _ => false) (fun _ => true)
           0x0C004000 (mkWorld (fun _ => 0) [EvCpuIrqDisable])).
  reflexivity.
Defined.

(** X14: in a build with the start hook, a hook that answers false keeps
    the user program from being started: [CpuStartUserProgram] returns to
    its caller in the state it was called in, whatever the checksum. *)
Lemma CpuStartUserProgram_vetoed (hook com : Z)
    (verify start_hook : world -> bool) (base : Z) (w : world) :
  0 < hook -> start_hook w = false ->
  CpuStartUserProgram hook com verify start_hook base w = Returned tt w.
Proof.
  intros Hh Hs. unfold CpuStartUserProgram, query, mbind, M_bind.
  destruct (verify w); [| reflexivity]. cbn [negb].
  apply Z.gtb_lt in Hh. rewrite Hh. rewrite Hs. reflexivity.
Qed.

Lemma CpuStartUserProgram_vetoed_witness :
  CpuStartUserProgram 1 1 (fun _ => true) (fun _ => false) 0x0C004000
      (mkWorld (fun _ => 0) [EvCpuIrqDisable])
    = Returned tt (mkWorld (fun _ => 0) [EvCpuIrqDisable]).
Proof.
  apply (CpuStartUserProgram_vetoed 1 1 (fun _ => true) (fun _ => false)
           0x0C004000 (mkWorld (fun _ => 0) [EvCpuIrqDisable])).
  - lia.
  - reflexivity.
Defined.

(** The run of a hand-off that is not refused, for every build
    configuration. *)
Lemma CpuStartUserProgram_run (hook com : Z)
    (verify start_hook : world -> bool) (base : Z) (w : world) :
  verify w = true ->
  (0 < hook -> start_hook w = true) ->
  CpuStartUserProgram hook com verify start_hook base w
    = Transferred
        (mkWorld (mem w)
           (log w ++ (if com >? 0 then [EvComFree] else []) ++
              [EvTimerReset;
               EvWriteReg SCB_VTOR (Z.land (wrap32 base) 0x1FFFFF80);
               EvCpuIrqEnable;
               EvCall (read32 (mem w) (wrap32 (base + 4)))])).
Proof.
  intros Hv Hh. unfold CpuStartUserProgram, query, mbind, M_bind.
  rewrite Hv. cbn [negb].
  unfold CPU_USER_PROGRAM_VECTABLE_OFFSET, CPU_USER_PROGRAM_STARTADDR_PTR.
  destruct (hook >? 0) eqn:E.
  - rewrite Hh by (apply Z.gtb_lt; exact E). cbn [negb].
    destruct (com >? 0); run_events.
  - destruct (com >? 0); run_events.
Qed.

(** C1, as the code has it: with a valid checksum and a start hook that is
    absent or does not veto, [CpuStartUserProgram] does, in this order:
    [ComFree] (only in a build with a communication interface,
    BOOT_COM_ENABLE > 0), [TimerReset], the store to the vector table offset
    register, [CpuIrqEnable], and the call of the address read from
    base + 4, from which it does not return. *)
Theorem CpuStartUserProgram_handoff_order (hook com : Z)
    (verify start_hook : world -> bool) (base : Z) (w : world) :
  verify w = true ->
  (0 < hook -> start_hook w = true) ->
  exists w',
    CpuStartUserProgram hook com verify start_hook base w = Transferred w' /\
    mem w' = mem w /\
    log w' = log w ++ (if com >? 0 then [EvComFree] else []) ++
               [EvTimerReset;
                EvWriteReg SCB_VTOR (Z.land (wrap32 base) 0x1FFFFF80);
                EvCpuIrqEnable;
                EvCall (read32 (mem w) (wrap32 (base + 4)))].
Proof.
  intros Hv Hh. eexists. split.
  - apply CpuStartUserProgram_run; assumption.
  - split; reflexivity.
Qed.

Lemma CpuStartUserProgram_handoff_order_witness :
  exists w',
    CpuStartUserProgram 1 1 (fun _ => true) (fun _ => true) 0x0C004000
        (mkWorld (fun a => if a =? 0x0C004005 then 0x42 else 0) [EvCpuIrqDisable])
      = Transferred w' /\
    mem w' = (fun a => if a =? 0x0C004005 then 0x42 else 0) /\
    log w' = [EvCpuIrqDisable] ++ [EvComFree] ++
               [EvTimerReset; EvWriteReg SCB_VTOR 0x0C004000;
                EvCpuIrqEnable; EvCall 0x4200].
Proof.
  apply (CpuStartUserProgram_handoff_order 1 1 (fun _ => true) (fun _ => true)
           0x0C004000
           (mkWorld (fun a => if a =? 0x0C004005 then 0x42 else 0) [EvCpuIrqDisable])).
  - reflexivity.
  - intros _. reflexivity.
Defined.

(** C1 fails as stated: in a build without communication interface
    (BOOT_COM_ENABLE = 0) the hand-off takes place and [ComFree] is not
    among the things done. *)
Lemma CpuStartUserProgram_handoff_order_counterexample :
  final_log (CpuStartUserProgram 0 0 (fun _ => true) (fun _ => true) 0x0C004000
               (mkWorld (fun a => if a =? 0x0C004005 then 0x42 else 0) []))
    = Some [EvTimerReset; EvWriteReg SCB_VTOR 0x0C004000;
            EvCpuIrqEnable; EvCall 0x4200] /\
  ~ In EvComFree [EvTimerReset; EvWriteReg SCB_VTOR 0x0C004000;
                  EvCpuIrqEnable; EvCall 0x4200].
Proof.
  split; [reflexivity |].
  simpl. intros H. repeat (destruct H as [H | H]; [discriminate H |]). exact H.
Qed.

(** The mask 0x1FFFFF80 has exactly the bits 7 to 28. *)
Lemma vtor_mask_bits (i : Z) :
  0 <= i -> Z.testbit 0x1FFFFF80 i = (7 <=? i) && (i <=? 28).
Proof.
  intros Hi. change 0x1FFFFF80 with (Z.shiftl (Z.ones 22) 7).
  rewrite Z.shiftl_spec by lia.
  destruct (Z_lt_le_dec i 7) as [Hlt | Hge].
  - rewrite Z.testbit_neg_r by lia.
    symmetry. apply andb_false_iff. left. apply Z.leb_gt. lia.
  - rewrite Z.testbit_ones by lia.
    replace (7 <=? i) with true by (symmetry; apply Z.leb_le; lia).
    replace (0 <=? i - 7) with true by (symmetry; apply Z.leb_le; lia).
    cbn [andb].
    destruct (Z_lt_le_dec (i - 7) 22) as [H1 | H1].
    + rewrite (proj2 (Z.ltb_lt _ _) H1). symmetry. apply Z.leb_le. lia.
    + rewrite (proj2 (Z.ltb_ge _ _) H1). symmetry. apply Z.leb_gt. lia.
Qed.

Lemma wrap32_bits (x i : Z) :
  0 <= i -> Z.testbit (wrap32 x) i = Z.testbit x i && (i <? 32).
Proof.
  intros Hi. unfold wrap32.
  destruct (Z_lt_le_dec i 32) as [Hlt | Hge].
  - rewrite Z.mod_pow2_bits_low by lia.
    rewrite (proj2 (Z.ltb_lt _ _) Hlt). symmetry. apply andb_true_r.
  - rewrite Z.mod_pow2_bits_high by lia.
    rewrite (proj2 (Z.ltb_ge _ _) Hge). symmetry. apply andb_false_r.
Qed.

Lemma vtor_value_bits (base i : Z) :
  0 <= i ->
  Z.testbit (Z.land (wrap32 base) 0x1FFFFF80) i
    = Z.testbit base i && ((7 <=? i) && (i <=? 28)).
Proof.
  intros Hi. rewrite Z.land_spec, vtor_mask_bits, wrap32_bits by lia.
  destruct (Z.testbit base i); cbn [andb]; [| reflexivity].
  destruct (Z_lt_le_dec i 32) as [Hlt | Hge].
  - rewrite (proj2 (Z.ltb_lt _ _) Hlt). reflexivity.
  - rewrite (proj2 (Z.ltb_ge _ _) Hge). cbn [andb].
    symmetry. apply andb_false_iff. right. apply Z.leb_gt. lia.
Qed.

Lemma vtor_value_aligned (base : Z) :
  Z.land (wrap32 base) 0x1FFFFF80 mod 2 ^ 7 = 0.
Proof.
  rewrite <- Z.land_ones by lia. apply Z.bits_inj'. intros i Hi.
  rewrite Z.land_spec, vtor_value_bits, Z.testbit_ones, Z.bits_0 by lia.
  destruct (Z_lt_le_dec i 7) as [Hlt | Hge].
  - replace (7 <=? i) with false by (symmetry; apply Z.leb_gt; lia).
    cbn [andb]. rewrite andb_false_r. reflexivity.
  - replace (i <? 7) with false by (symmetry; apply Z.ltb_ge; lia).
    rewrite !andb_false_r. reflexivity.
Qed.

Lemma vtor_value_window (base : Z) :
  0 <= Z.land (wrap32 base) 0x1FFFFF80 < 2 ^ 29.
Proof.
  set (v := Z.land (wrap32 base) 0x1FFFFF80).
  assert (Hv : v mod 2 ^ 29 = v).
  { rewrite <- Z.land_ones by lia. apply Z.bits_inj'. intros i Hi.
    unfold v. rewrite Z.land_spec, vtor_value_bits, Z.testbit_ones by lia.
    destruct (Z_lt_le_dec i 29) as [Hlt | Hge].
    - replace (0 <=? i) with true by (symmetry; apply Z.leb_le; lia).
      replace (i <? 29) with true by (symmetry; apply Z.ltb_lt; lia).
      rewrite !andb_true_r. reflexivity.
    - replace (i <=? 28) with false by (symmetry; apply Z.leb_gt; lia).
      rewrite !andb_false_r. reflexivity. }
  rewrite <- Hv. apply Z.mod_pos_bound. lia.
Qed.

Lemma reg_writes_app (addr : Z) (l1 l2 : list event) :
  reg_writes addr (l1 ++ l2) = reg_writes addr l1 ++ reg_writes addr l2.
Proof. unfold reg_writes. apply omap_app. Qed.

(** C5, as the code has it: the one value [CpuStartUserProgram] stores to
    the vector table offset register is the user program base address
    ANDed with 0x1FFFFF80.  Its lowest 7 bits are zero and it lies in a
    29-bit window (bits 29 to 31 are cleared): it keeps the 22 bits 7..28
    of the base address and nothing else. *)
Theorem CpuStartUserProgram_vtor_value (hook com : Z)
    (verify start_hook : world -> bool) (base : Z) (w : world) :
  verify w = true ->
  (0 < hook -> start_hook w = true) ->
  exists l v,
    final_log (CpuStartUserProgram hook com verify start_hook base w) = Some l /\
    reg_writes SCB_VTOR l = reg_writes SCB_VTOR (log w) ++ [v] /\
    v = Z.land (wrap32 base) 0x1FFFFF80 /\
    v mod 2 ^ 7 = 0 /\
    0 <= v < 2 ^ 29 /\
    (forall i, 0 <= i ->
       Z.testbit v i = Z.testbit base i && ((7 <=? i) && (i <=? 28))).
Proof.
  intros Hv Hh.
  rewrite (CpuStartUserProgram_run hook com verify start_hook base w Hv Hh).
  cbn [final_log log].
  eexists. exists (Z.land (wrap32 base) 0x1FFFFF80).
  split; [reflexivity |]. split.
  - rewrite !reg_writes_app. destruct (com >? 0); reflexivity.
  - split; [reflexivity |]. split; [apply vtor_value_aligned |].
    split; [apply vtor_value_window |].
    intros i Hi. apply vtor_value_bits. exact Hi.
Qed.

Lemma CpuStartUserProgram_vtor_value_witness :
  exists l v,
    final_log (CpuStartUserProgram 0 1 (fun _ => true) (fun _ => true) 0xFFFFFFFF
                 (mkWorld (fun _ => 0) [])) = Some l /\
    reg_writes SCB_VTOR l = [] ++ [v] /\
    v = Z.land (wrap32 0xFFFFFFFF) 0x1FFFFF80 /\
    v mod 2 ^ 7 = 0 /\
    0 <= v < 2 ^ 29 /\
    (forall i, 0 <= i ->
       Z.testbit v i = Z.testbit 0xFFFFFFFF i && ((7 <=? i) && (i <=? 28))).
Proof.
  apply (CpuStartUserProgram_vtor_value 0 1 (fun _ => true) (fun _ => true)
           0xFFFFFFFF (mkWorld (fun _ => 0) [])).
  - reflexivity.
  - intros H. lia.
Defined.

(** C5 fails as stated: for the base address 0x0C004000 the value stored
    is 0x0C004000 itself, which does not fit a 21-bit window, and is not
    the base address under the mask that clears the lowest 7 bits and
    keeps 21 bits (0x001FFF80). *)
Lemma CpuStartUserProgram_vtor_value_counterexample :
  option_map (reg_writes SCB_VTOR)
    (final_log (CpuStartUserProgram 0 1 (fun _ => true) (fun _ => true) 0x0C004000
                  (mkWorld (fun _ => 0) [])))
    = Some [0x0C004000] /\
  ~ 0x0C004000 < 2 ^ 21 /\
  0x0C004000 <> Z.land 0x0C004000 0x001FFF80.
Proof.
  split; [reflexivity |]. split.
  - vm_compute. discriminate.
  - vm_compute. discriminate.
Qed.

(* ===================================================================== *)
(** * cpu.c: bulk memory operations and the watchdog *)
(* ===================================================================== *)

Lemma repeat_snoc_cons {A} (x : A) (n : nat) (l : list A) :
  (l ++ [x]) ++ repeat x n = l ++ repeat x (S n).
Proof. rewrite <- app_assoc. reflexivity. Qed.

(** The copy loop ends after [len] rounds, each with one watchdog service,
    whenever the fuel exceeds [len]. *)
Lemma CpuMemCopy_loop_log (fuel : nat) :
  forall (to from len : Z) (w : world),
    0 <= len < 65536 -> (Z.to_nat len < fuel)%nat ->
    exists w',
      CpuMemCopy_loop fuel to from len w = Returned tt w' /\
      log w' = log w ++ repeat EvCopService (Z.to_nat len).
Proof.
  induction fuel as [| fuel IH]; intros to from len w Hlen Hfuel; [lia |].
  cbn [CpuMemCopy_loop].
  destruct (len >? 0) eqn:Hpos.
  - apply Z.gtb_lt in Hpos.
    unfold mbind, M_bind. run_events.
    rewrite wrap16_pred by lia.
    edestruct (IH (wrap32 (to + 1)) (wrap32 (from + 1)) (len - 1)) as (w' & Hrun & Hlog);
      [lia | lia | ].
    eexists. split; [exact Hrun |].
    rewrite Hlog. cbn [log]. rewrite repeat_snoc_cons.
    replace (S (Z.to_nat (len - 1))) with (Z.to_nat len) by lia. reflexivity.
  - rewrite Z.gtb_ltb in Hpos. apply Z.ltb_ge in Hpos.
    exists w. split; [reflexivity |].
    replace len with 0 by lia. cbn [Z.to_nat repeat]. rewrite app_nil_r. reflexivity.
Qed.

Lemma CpuMemSet_loop_log (fuel : nat) :
  forall (to value len : Z) (w : world),
    0 <= len < 65536 -> (Z.to_nat len < fuel)%nat ->
    exists w',
      CpuMemSet_loop fuel to value len w = Returned tt w' /\
      log w' = log w ++ repeat EvCopService (Z.to_nat len).
Proof.
  induction fuel as [| fuel IH]; intros to value len w Hlen Hfuel; [lia |].
  cbn [CpuMemSet_loop].
  destruct (len >? 0) eqn:Hpos.
  - apply Z.gtb_lt in Hpos.
    unfold mbind, M_bind. run_events.
    rewrite wrap16_pred by lia.
    edestruct (IH (wrap32 (to + 1)) value (len - 1)) as (w' & Hrun & Hlog);
      [lia | lia | ].
    eexists. split; [exact Hrun |].
    rewrite Hlog. cbn [log]. rewrite repeat_snoc_cons.
    replace (S (Z.to_nat (len - 1))) with (Z.to_nat len) by lia. reflexivity.
  - rewrite Z.gtb_ltb in Hpos. apply Z.ltb_ge in Hpos.
    exists w. split; [reflexivity |].
    replace len with 0 by lia. cbn [Z.to_nat repeat]. rewrite app_nil_r. reflexivity.
Qed.

(** What [CpuMemSet] leaves in memory: [value], as a byte, at the [len]
    addresses from [dest] on, and the former contents elsewhere. *)
Lemma block_member_step (to len a : Z) :
  0 <= to < 2 ^ 32 -> 0 < len < 2 ^ 32 ->
  block_member to len a
    = (a =? to) || block_member (wrap32 (to + 1)) (len - 1) a.
Proof.
  intros Hto Hlen. unfold block_member, wrap32.
  destruct (Z.eqb_spec a to) as [-> | Hne]; cbn [orb].
  - replace (to - to) with 0 by lia. rewrite Z.mod_0_l by lia.
    rewrite !andb_true_iff, !Z.leb_le, !Z.ltb_lt. lia.
  - apply eq_true_iff_eq.
    rewrite !andb_true_iff, !Z.leb_le, !Z.ltb_lt.
    rewrite Zminus_mod_idemp_r.
    split; intros [[Ha1 Ha2] Hd]; (split; [split; assumption |]).
    + revert Hd. Z.to_euclidean_division_equations. lia.
    + revert Hd. Z.to_euclidean_division_equations. lia.
Qed.

Lemma CpuMemSet_loop_mem (fuel : nat) :
  forall (to value len : Z) (w w' : world),
    0 <= to < 2 ^ 32 -> 0 <= len < 65536 ->
    CpuMemSet_loop fuel to value len w = Returned tt w' ->
    forall a, mem w' a = if block_member to len a then wrap8 value else mem w a.
Proof.
  induction fuel as [| fuel IH]; intros to value len w w' Hto Hlen Hrun a;
    [discriminate |].
  cbn [CpuMemSet_loop] in Hrun.
  destruct (len >? 0) eqn:Hpos.
  - apply Z.gtb_lt in Hpos.
    unfold mbind, M_bind in Hrun. revert Hrun. run_events. intros Hrun.
    rewrite wrap16_pred in Hrun by lia.
    apply (IH _ _ _ _ _) with (a := a) in Hrun;
      [| unfold wrap32; apply Z.mod_pos_bound; lia | lia].
    rewrite Hrun. cbn [mem].
    rewrite (block_member_step to len a) by lia.
    destruct (a =? to); cbn [orb]; [| reflexivity].
    destruct (block_member _ _ a); reflexivity.
  - rewrite Z.gtb_ltb in Hpos. apply Z.ltb_ge in Hpos.
    injection Hrun as <-.
    replace (block_member to len a) with false; [reflexivity |].
    symmetry. unfold block_member. apply andb_false_iff. right.
    apply Z.ltb_ge. pose proof (wrap32_range (a - to)). lia.
Qed.

(** X16: [CpuMemSet] returns with [value], cut to a byte, in each of the
    [len] bytes from [dest] on (addresses wrap around at 2^32) and with
    every other byte of memory as it was. *)
Lemma CpuMemSet_sets_bytes (dest value len : Z) (w : world) :
  0 <= dest < 2 ^ 32 -> 0 <= len <= 65535 ->
  exists w',
    CpuMemSet dest value len w = Returned tt w' /\
    forall a, mem w' a = if block_member dest len a then wrap8 value else mem w a.
Proof.
  intros Hdest Hlen.
  destruct (CpuMemSet_loop_log loop_fuel dest value len w) as (w' & Hrun & _);
    [lia | unfold loop_fuel; lia |].
  exists w'. split; [exact Hrun |].
  apply (CpuMemSet_loop_mem loop_fuel dest value len w w'); [lia | lia | exact Hrun].
Qed.

Lemma CpuMemSet_sets_bytes_witness :
  exists w',
    CpuMemSet 0xFFFFFFFE 0x1AB 4 (mkWorld (fun _ => 7) []) = Returned tt w' /\
    forall a, mem w' a = if block_member 0xFFFFFFFE 4 a then wrap8 0x1AB else 7.
Proof.
  apply (CpuMemSet_sets_bytes 0xFFFFFFFE 0x1AB 4 (mkWorld (fun _ => 7) [])); lia.
Defined.

Lemma cop_calls_app (l1 l2 : list event) :
  cop_calls (l1 ++ l2) = (cop_calls l1 + cop_calls l2)%nat.
Proof. unfold cop_calls. rewrite filter_app, length_app. reflexivity. Qed.

Lemma cop_calls_repeat (n : nat) : cop_calls (repeat EvCopService n) = n.
Proof.
  unfold cop_calls. induction n as [| n IH]; [reflexivity |].
  cbn [repeat]. rewrite filter_cons_True by reflexivity.
  cbn [length]. rewrite IH. reflexivity.
Qed.

(** C7: for every 16-bit length, [CpuMemCopy] and [CpuMemSet] return
    after having called [CopService] exactly [len] times, and nothing else
    shows in the log: none for length 0, one for length 1, 65535 for
    length 65535. *)
Theorem CpuMemCopy_CpuMemSet_service_count (dest src value len : Z) (w : world) :
  0 <= len <= 65535 ->
  (exists w',
      CpuMemCopy dest src len w = Returned tt w' /\
      log w' = log w ++ repeat EvCopService (Z.to_nat len) /\
      cop_calls (log w') = (cop_calls (log w) + Z.to_nat len)%nat) /\
  (exists w',
      CpuMemSet dest value len w = Returned tt w' /\
      log w' = log w ++ repeat EvCopService (Z.to_nat len) /\
      cop_calls (log w') = (cop_calls (log w) + Z.to_nat len)%nat).
Proof.
  intros Hlen.
  assert (Hfuel : (Z.to_nat len < loop_fuel)%nat) by (unfold loop_fuel; lia).
  split.
  - destruct (CpuMemCopy_loop_log loop_fuel dest src len w) as (w' & Hrun & Hlog);
      [lia | exact Hfuel |].
    exists w'. split; [exact Hrun |]. split; [exact Hlog |].
    rewrite Hlog, cop_calls_app, cop_calls_repeat. reflexivity.
  - destruct (CpuMemSet_loop_log loop_fuel dest value len w) as (w' & Hrun & Hlog);
      [lia | exact Hfuel |].
    exists w'. split; [exact Hrun |]. split; [exact Hlog |].
    rewrite Hlog, cop_calls_app, cop_calls_repeat. reflexivity.
Qed.

Lemma CpuMemCopy_CpuMemSet_service_count_witness :
  (exists w',
      CpuMemCopy 0x20000000 0x0C004000 65535 (mkWorld (fun _ => 0) []) = Returned tt w' /\
      log w' = log (mkWorld (fun _ => 0) []) ++ repeat EvCopService (Z.to_nat 65535) /\
      cop_calls (log w')
        = (cop_calls (log (mkWorld (fun _ => 0%Z) [])) + Z.to_nat 65535)%nat) /\
  (exists w',
      CpuMemSet 0x20000000 0xFF 65535 (mkWorld (fun _ => 0) []) = Returned tt w' /\
      log w' = log (mkWorld (fun _ => 0) []) ++ repeat EvCopService (Z.to_nat 65535) /\
      cop_calls (log w')
        = (cop_calls (log (mkWorld (fun _ => 0%Z) [])) + Z.to_nat 65535)%nat).
Proof.
  apply (CpuMemCopy_CpuMemSet_service_count 0x20000000 0x0C004000 0xFF 65535
           (mkWorld (fun _ => 0) [])).
  lia.
Defined.

(** The two small boundary lengths, by running the code. *)
Example CpuMemCopy_length_0 :
  final_log (CpuMemCopy 0x20000000 0x0C004000 0 (mkWorld (fun _ => 0) [])) = Some [].
Proof. reflexivity. Qed.

Example CpuMemCopy_length_1 :
  final_log (CpuMemCopy 0x20000000 0x0C004000 1 (mkWorld (fun _ => 0) []))
    = Some [EvCopService].
Proof. reflexivity. Qed.

Example CpuMemSet_length_0 :
  final_log (CpuMemSet 0x20000000 0xFF 0 (mkWorld (fun _ => 0) [])) = Some [].
Proof. reflexivity. Qed.

Example CpuMemSet_length_1 :
  final_log (CpuMemSet 0x20000000 0xFF 1 (mkWorld (fun _ => 0) []))
    = Some [EvCopService].
Proof. reflexivity. Qed.

(* ===================================================================== *)
(** * Further properties of can.c *)
(* ===================================================================== *)

(** The source comment on [canTiming]: 8 to 25 time quanta in a bit, and
    a sample point (SYNC + TSEG1) / (SYNC + TSEG1 + TSEG2) of 68 to 78 %. *)
Lemma canTiming_sample_points :
  Forall (fun e => 68 * total_quanta e <= 100 * (1 + tseg1 e)
                   /\ 100 * (1 + tseg1 e) <= 78 * total_quanta e) canTiming.
Proof. unfold canTiming, total_quanta. repeat constructor; simpl; lia. Qed.

(** A true answer of the search comes from a table entry, and the stored
    prescaler has passed the range test; this needs no bound on the clock
    or the baudrate. *)
Lemma CanGetSpeedConfig_loop_true (clk baud : Z) :
  forall (todo : list tCanBusTiming) (o o' : speed_out),
    Forall entry_bounds todo ->
    CanGetSpeedConfig_loop clk todo baud o = Some (true, o') ->
    1 <= out_prescaler o' <= 1024 /\
    exists e, In e todo /\ out_tseg1 o' = tseg1 e /\ out_tseg2 o' = tseg2 e.
Proof.
  induction todo as [| e rest IH]; intros o o' Hb Hrun; [discriminate |].
  apply Forall_cons in Hb as [He Hrest].
  cbn [CanGetSpeedConfig_loop] in Hrun.
  destruct (baud * (tseg1 e + tseg2 e + 1) =? 0); [discriminate |].
  destruct (Z.rem _ _ =? 0).
  - match type of Hrun with
    | (if ?c then _ else _) = _ => destruct c eqn:Hrange
    end.
    + injection Hrun as <-.
      apply andb_true_iff in Hrange as [Hlo Hhi].
      apply Z.gtb_lt in Hlo. apply Z.leb_le in Hhi.
      unfold set_tsegs. cbn [out_prescaler out_tseg1 out_tseg2].
      split; [lia |]. exists e. destruct He as (H1 & H2 & _).
      rewrite !wrap8_small by lia.
      split; [left; reflexivity | split; reflexivity].
    + apply IH in Hrun as (Hp & e1 & Hin & Ht); [| exact Hrest].
      split; [exact Hp |]. exists e1. split; [right; exact Hin | exact Ht].
  - apply IH in Hrun as (Hp & e1 & Hin & Ht); [| exact Hrest].
    split; [exact Hp |]. exists e1. split; [right; exact Hin | exact Ht].
Qed.

(** X1: whatever the clock and the baudrate, a timing that
    [CanGetSpeedConfig] delivers with a true answer has a prescaler in
    [1,1024] and the segments of one table entry, hence 8 to 25 time quanta
    in a bit and a sample point between 68 and 78 percent. *)
Theorem CanGetSpeedConfig_within_limits (clk baud : Z) (o o' : speed_out) :
  CanGetSpeedConfig clk baud o = Some (true, o') ->
  1 <= out_prescaler o' <= 1024 /\
  In (mkTiming (out_tseg1 o') (out_tseg2 o')) canTiming /\
  8 <= out_tseg1 o' + out_tseg2 o' + 1 <= 25 /\
  68 * (out_tseg1 o' + out_tseg2 o' + 1) <= 100 * (1 + out_tseg1 o') /\
  100 * (1 + out_tseg1 o') <= 78 * (out_tseg1 o' + out_tseg2 o' + 1).
Proof.
  intros Hrun.
  apply CanGetSpeedConfig_loop_true in Hrun as (Hp & e & Hin & -> & ->);
    [| exact canTiming_bounds].
  split; [exact Hp |].
  assert (He : mkTiming (tseg1 e) (tseg2 e) = e) by (destruct e; reflexivity).
  rewrite He. split; [exact Hin |].
  pose proof canTiming_bounds as Hb. pose proof canTiming_sample_points as Hs.
  rewrite Forall_forall in Hb, Hs.
  apply list_elem_of_In in Hin.
  specialize (Hb e Hin). specialize (Hs e Hin).
  unfold entry_bounds, total_quanta in *. lia.
Qed.

Lemma CanGetSpeedConfig_within_limits_witness :
  CanGetSpeedConfig 72000 125 (mkOut 0 0 0) = Some (true, mkOut 36 5 2) /\
  1 <= 36 <= 1024 /\
  In (mkTiming 5 2) canTiming /\
  8 <= 5 + 2 + 1 <= 25 /\
  68 * (5 + 2 + 1) <= 100 * (1 + 5) /\
  100 * (1 + 5) <= 78 * (5 + 2 + 1).
Proof.
  split; [reflexivity |].
  apply (CanGetSpeedConfig_within_limits 72000 125 (mkOut 0 0 0) (mkOut 36 5 2)).
  reflexivity.
Defined.

(** X2: the search prefers few time quanta.  When some entry satisfies
    both tests, the entry whose values are delivered has the smallest
    number of time quanta, and so the largest prescaler, of all the entries
    that satisfy them. *)
Theorem CanGetSpeedConfig_fewest_quanta (clk baud : Z) (o : speed_out) :
  0 <= clk -> 0 <= baud ->
  (exists e, In e canTiming /\ satisfies clk baud e) ->
  exists e,
    In e canTiming /\ satisfies clk baud e /\
    CanGetSpeedConfig clk baud o
      = Some (true, mkOut (quotient clk baud e) (tseg1 e) (tseg2 e)) /\
    forall e', In e' canTiming -> satisfies clk baud e' ->
      total_quanta e <= total_quanta e' /\
      quotient clk baud e' <= quotient clk baud e.
Proof.
  intros Hclk Hbaud (e0 & He0 & Hsat0).
  assert (Hbe0 : entry_bounds e0).
  { pose proof canTiming_bounds as Hall. rewrite Forall_forall in Hall.
    apply Hall, list_elem_of_In, He0. }
  destruct (satisfies_fits clk baud e0 Hclk Hbaud Hbe0 Hsat0) as [Hb Hfit].
  destruct (CanGetSpeedConfig_loop_spec clk baud Hclk Hb Hfit canTiming o canTiming_bounds)
    as [(before & e & after & Heq & Hbefore & Hsat & Hrun) | [Hnone _]].
  2:{ rewrite Forall_forall in Hnone. exfalso.
      apply (Hnone e0); [apply list_elem_of_In, He0 | exact Hsat0]. }
  exists e. split; [rewrite Heq; apply in_or_app; right; left; reflexivity |].
  split; [exact Hsat |]. split; [exact Hrun |].
  intros e' He' Hsat'.
  assert (Hle : total_quanta e <= total_quanta e').
  { rewrite Heq in He'. apply in_app_or in He' as [Hin | [<- | Hin]].
    - rewrite Forall_forall in Hbefore. exfalso.
      apply (Hbefore e'); [apply list_elem_of_In, Hin | exact Hsat'].
    - lia.
    - pose proof canTiming_sorted as Hs. rewrite Heq in Hs.
      apply StronglySorted_app in Hs as (_ & _ & Hs).
      apply StronglySorted_cons in Hs as [Hs _].
      rewrite Forall_forall in Hs.
      specialize (Hs e' (proj2 (list_elem_of_In _ _) Hin)). lia. }
  split; [exact Hle |].
  unfold quotient.
  assert (Hq : 8 <= total_quanta e).
  { pose proof canTiming_bounds as Hall. rewrite Forall_forall in Hall.
    assert (Hin : In e canTiming)
      by (rewrite Heq; apply in_or_app; right; left; reflexivity).
    destruct (Hall e (proj2 (list_elem_of_In _ _) Hin)) as (_ & _ & H3). lia. }
  apply Z.div_le_compat_l.
  - apply Z.div_pos; lia.
  - split; [nia |]. apply Z.mul_le_mono_nonneg_l; lia.
Qed.

Lemma CanGetSpeedConfig_fewest_quanta_witness :
  exists e,
    In e canTiming /\ satisfies 72000 250 e /\
    CanGetSpeedConfig 72000 250 (mkOut 0 0 0)
      = Some (true, mkOut (quotient 72000 250 e) (tseg1 e) (tseg2 e)) /\
    forall e', In e' canTiming -> satisfies 72000 250 e' ->
      total_quanta e <= total_quanta e' /\
      quotient 72000 250 e' <= quotient 72000 250 e.
Proof.
  apply (CanGetSpeedConfig_fewest_quanta 72000 250 (mkOut 0 0 0)); [lia | lia |].
  exists (mkTiming 12 5). split.
  - simpl. tauto.
  - apply satisfiesb_spec. vm_compute. reflexivity.
Defined.

(** Where every exact quotient lies in [1,1024], a false answer means that
    no entry passed the divisibility test, and nothing was stored. *)
Lemma CanGetSpeedConfig_loop_false (clk baud : Z) :
  2 <= clk -> clk / 2 <= 8192 * baud ->
  forall (todo : list tCanBusTiming) (o o' : speed_out),
    Forall entry_bounds todo ->
    CanGetSpeedConfig_loop clk todo baud o = Some (false, o') -> o' = o.
Proof.
  intros Hclk Hfit.
  assert (Hx : 1 <= clk / 2) by (apply Z.div_le_lower_bound; lia).
  assert (Hb : 0 < baud) by lia.
  induction todo as [| e rest IH]; intros o o' Hbd Hrun.
  - injection Hrun as <-. reflexivity.
  - apply Forall_cons in Hbd as [He Hrest].
    destruct (round_arith clk baud e) as (Hd & Hrem & Hq & Hq0);
      [lia | exact Hb | lia | exact He |].
    cbn [CanGetSpeedConfig_loop] in Hrun. rewrite Hd, Hrem in Hrun.
    unfold set_prescaler in Hrun. cbn [out_prescaler] in Hrun. rewrite Hq in Hrun.
    destruct ((clk / 2) mod (baud * total_quanta e) =? 0) eqn:Hdiv;
      [| apply IH in Hrun; assumption].
    exfalso. apply Z.eqb_eq in Hdiv.
    destruct He as (_ & _ & H3). unfold quotient in *.
    set (d := baud * total_quanta e) in *.
    assert (Hdpos : 0 < d) by (unfold d; nia).
    assert (Hex : clk / 2 = d * (clk / 2 / d)) by (apply Z.div_exact; [lia | exact Hdiv]).
    assert (Hlo : 1 <= clk / 2 / d) by nia.
    assert (Hhi : clk / 2 / d <= 1024).
    { apply Z.lt_succ_r. apply Z.div_lt_upper_bound; [lia |]. unfold d. nia. }
    replace (clk / 2 / d >? 0) with true in Hrun
      by (symmetry; apply Z.gtb_lt; lia).
    replace (clk / 2 / d <=? 1024) with true in Hrun
      by (symmetry; apply Z.leb_le; lia).
    discriminate.
Qed.

(** X3: for a clock and baudrate with 1 <= clk/2 <= 8192 * baud (on the
    72 MHz target: every baudrate from 5 kbit/s on) a false answer of
    [CanGetSpeedConfig] leaves prescaler, tseg1 and tseg2 exactly as they
    were. *)
Theorem CanGetSpeedConfig_false_untouched (clk baud : Z) (o o' : speed_out) :
  2 <= clk -> clk / 2 <= 8192 * baud ->
  CanGetSpeedConfig clk baud o = Some (false, o') -> o' = o.
Proof.
  intros Hclk Hfit Hrun.
  exact (CanGetSpeedConfig_loop_false clk baud Hclk Hfit canTiming o o'
           canTiming_bounds Hrun).
Qed.

Lemma CanGetSpeedConfig_false_untouched_witness :
  CanGetSpeedConfig 72000 7 (mkOut 3 1 2) = Some (false, mkOut 3 1 2) /\
  mkOut 3 1 2 = mkOut 3 1 2.
Proof.
  split; [reflexivity |].
  apply (CanGetSpeedConfig_false_untouched 72000 7 (mkOut 3 1 2) (mkOut 3 1 2)).
  - lia.
  - vm_compute. discriminate.
  - reflexivity.
Defined.

(** *** Transmission *)

(** The transmit copy loop is the receive copy loop with the roles of the
    two arrays exchanged. *)
Lemma tx_copy_loop_eq (fuel : nat) :
  forall (i len : Z) (data buf : list Z),
    tx_copy_loop fuel i len data buf
      = copy_loop fuel i (mkRxMsg 0 0 0 len data) buf.
Proof.
  induction fuel as [| fuel IH]; intros i len data buf; [reflexivity |].
  cbn [tx_copy_loop copy_loop DLC Data].
  destruct (i <? len); [| reflexivity].
  destruct (data !! Z.to_nat i); [| reflexivity].
  destruct (Z.to_nat i <? length buf)%nat; [| reflexivity].
  apply IH.
Qed.

(** What a call of [CanTransmitPacket] that has a result hands to the
    HAL. *)
Lemma CanTransmitPacket_inv (txid std ext rtr : Z) (m m' : CanTxMsgTypeDef)
    (data : list Z) (len t : Z) :
  0 <= len ->
  CanTransmitPacket txid std ext rtr m data len = Some (m', t) ->
  t = 50 /\ tx_RTR m' = rtr /\ tx_DLC m' = len /\ len < 256 /\
  (if Z.testbit (wrap32 txid) 31
   then tx_IDE m' = ext /\ tx_ExtId m' = wrap32 txid mod 2 ^ 31 /\
        tx_StdId m' = tx_StdId m
   else tx_IDE m' = std /\ tx_StdId m' = wrap32 txid /\
        tx_ExtId m' = tx_ExtId m) /\
  length (tx_Data m') = length (tx_Data m) /\
  (forall k : nat, Z.of_nat k < len ->
     tx_Data m' !! k = data !! k /\ is_Some (data !! k)) /\
  (forall k : nat, len <= Z.of_nat k -> tx_Data m' !! k = tx_Data m !! k).
Proof.
  intros Hlen. unfold CanTransmitPacket.
  rewrite land_bit31_zero, land_clear_bit31.
  set (m1 := if negb (Z.testbit (wrap32 txid) 31) then _ else _).
  assert (Hdata1 : tx_Data m1 = tx_Data m)
    by (unfold m1; destruct (Z.testbit (wrap32 txid) 31); reflexivity).
  rewrite Hdata1, tx_copy_loop_eq.
  destruct (copy_loop 256 0 _ (tx_Data m)) as [buf |] eqn:Hcopy; [| discriminate].
  intros H. injection H as <- <-.
  apply copy_loop_spec in Hcopy as (Hl & Hlt & Hnew & Hold); [| lia | lia].
  cbn [DLC Data] in *. cbn [tx_RTR tx_DLC tx_Data tx_IDE tx_StdId tx_ExtId].
  split; [reflexivity |]. split; [reflexivity |]. split; [reflexivity |].
  split; [lia |]. split.
  { unfold m1. destruct (Z.testbit (wrap32 txid) 31); cbn; repeat split; reflexivity. }
  split; [exact Hl |]. split.
  - intros k Hk. apply Hnew. lia.
  - intros k Hk. apply Hold. lia.
Qed.

(** X7: the frame that [CanTransmitPacket] submits: a data frame (RTR) of
    [len] bytes whose first [len] data bytes are the caller's, in the
    standard format with the configured identifier when bit 31 of that
    identifier is clear, in the extended format with its low 31 bits when
    the bit is set; the identifier field of the other format and the data
    bytes from [len] on keep what the buffer held before.  The timeout
    given to the HAL is 50 ms. *)
Theorem CanTransmitPacket_frame (txid std ext rtr : Z) (m m' : CanTxMsgTypeDef)
    (data : list Z) (len t : Z) :
  0 <= len ->
  CanTransmitPacket txid std ext rtr m data len = Some (m', t) ->
  t = 50 /\ tx_RTR m' = rtr /\ tx_DLC m' = len /\
  (if Z.testbit (wrap32 txid) 31
   then tx_IDE m' = ext /\ tx_ExtId m' = wrap32 txid mod 2 ^ 31 /\
        tx_StdId m' = tx_StdId m
   else tx_IDE m' = std /\ tx_StdId m' = wrap32 txid /\
        tx_ExtId m' = tx_ExtId m) /\
  (forall k : nat, Z.of_nat k < len ->
     tx_Data m' !! k = data !! k /\ is_Some (data !! k)) /\
  (forall k : nat, len <= Z.of_nat k -> tx_Data m' !! k = tx_Data m !! k).
Proof.
  intros Hlen Hrun.
  destruct (CanTransmitPacket_inv txid std ext rtr m m' data len t Hlen Hrun)
    as (Ht & Hrtr & Hdlc & _ & Hid & _ & Hnew & Hold).
  split; [exact Ht |]. split; [exact Hrtr |]. split; [exact Hdlc |].
  split; [exact Hid |]. split; [exact Hnew | exact Hold].
Qed.

Lemma CanTransmitPacket_frame_witness :
  CanTransmitPacket 0x800007E1 0 4 0
      (mkTxMsg 0x55 0x66 0 2 8 [9; 9; 9; 9; 9; 9; 9; 9]) [1; 2; 3] 3
    = Some (mkTxMsg 0x55 0x7E1 4 0 3 [1; 2; 3; 9; 9; 9; 9; 9], 50) /\
  50 = 50 /\ 0 = 0 /\ 3 = 3 /\
  (4 = 4 /\ 0x7E1 = wrap32 0x800007E1 mod 2 ^ 31 /\ 0x55 = 0x55) /\
  (forall k : nat, Z.of_nat k < 3 ->
     [1; 2; 3; 9; 9; 9; 9; 9] !! k = [1; 2; 3] !! k /\ is_Some ([1; 2; 3] !! k)) /\
  (forall k : nat, 3 <= Z.of_nat k ->
     [1; 2; 3; 9; 9; 9; 9; 9] !! k = [9; 9; 9; 9; 9; 9; 9; 9] !! k).
Proof.
  split; [reflexivity |].
  apply (CanTransmitPacket_frame 0x800007E1 0 4 0
           (mkTxMsg 0x55 0x66 0 2 8 [9; 9; 9; 9; 9; 9; 9; 9])
           (mkTxMsg 0x55 0x7E1 4 0 3 [1; 2; 3; 9; 9; 9; 9; 9])
           [1; 2; 3] 3 50).
  - lia.
  - reflexivity.
Defined.

(** X8: with the 8-byte [Data] array of the HAL, [CanTransmitPacket] has
    a defined result exactly for lengths up to 8 that the caller's array
    covers; a longer packet makes the copy loop write past [Data]. *)
Theorem CanTransmitPacket_defined_iff (txid std ext rtr : Z)
    (m : CanTxMsgTypeDef) (data : list Z) (len : Z) :
  length (tx_Data m) = 8%nat -> 0 <= len <= 255 ->
  (exists r, CanTransmitPacket txid std ext rtr m data len = Some r)
  <-> len <= 8 /\ len <= Z.of_nat (length data).
Proof.
  intros Hbuf Hlen. unfold CanTransmitPacket.
  set (m1 := if Z.land (wrap32 txid) 0x80000000 =? 0 then _ else _).
  assert (Hdata1 : tx_Data m1 = tx_Data m)
    by (unfold m1; destruct (Z.land (wrap32 txid) 0x80000000 =? 0); reflexivity).
  rewrite Hdata1, tx_copy_loop_eq. split.
  - intros [r Hr].
    destruct (copy_loop 256 0 _ (tx_Data m)) as [buf |] eqn:Hcopy; [| discriminate].
    destruct (Z.eq_dec len 0) as [-> | Hne]; [lia |].
    apply copy_loop_room in Hcopy; cbn [DLC Data] in *; lia.
  - intros [H8 Hd].
    destruct (copy_loop_total 256 0 (mkRxMsg 0 0 0 len data) (tx_Data m))
      as [buf Hcopy]; cbn [DLC Data]; try lia.
    rewrite Hcopy. eexists. reflexivity.
Qed.

Lemma CanTransmitPacket_defined_iff_witness :
  (exists r, CanTransmitPacket 0x7E1 0 4 0
               (mkTxMsg 0 0 0 0 0 [0; 0; 0; 0; 0; 0; 0; 0])
               [1; 2; 3; 4; 5; 6; 7; 8; 9] 9 = Some r)
  <-> 9 <= 8 /\ 9 <= Z.of_nat (length [1; 2; 3; 4; 5; 6; 7; 8; 9]).
Proof.
  apply (CanTransmitPacket_defined_iff 0x7E1 0 4 0
           (mkTxMsg 0 0 0 0 0 [0; 0; 0; 0; 0; 0; 0; 0])
           [1; 2; 3; 4; 5; 6; 7; 8; 9] 9).
  - reflexivity.
  - lia.
Defined.

(** X9: round trip.  A packet sent by [CanTransmitPacket] and found as the
    pending frame by a [CanReceivePacket] whose receive identifier is the
    sender's transmit identifier is delivered: true is returned, [len] is
    the length sent and the first [len] bytes of [data] are the bytes
    sent. *)
Theorem CanTransmit_receive_round_trip (id std ext rtr : Z)
    (m m' : CanTxMsgTypeDef) (data : list Z) (len t : Z)
    (rx : CanRxMsgTypeDef) (o : rx_out) :
  0 <= len ->
  CanTransmitPacket id std ext rtr m data len = Some (m', t) ->
  carries std ext rx m' ->
  len <= Z.of_nat (length (out_data o)) ->
  exists o',
    CanReceivePacket id std ext (HAL_OK, rx) o = Some (true, o') /\
    out_len o' = len /\
    forall k : nat, Z.of_nat k < len -> out_data o' !! k = data !! k.
Proof.
  intros Hlen Hrun (Hide & Hdlc & Hdat & Hstd & Hext) Hroom.
  destruct (CanTransmitPacket_inv id std ext rtr m m' data len t Hlen Hrun)
    as (_ & _ & Hdlc' & H256 & Hid & _ & Hnew & _).
  assert (Hm : frame_matches id std ext rx).
  { unfold frame_matches, filter_extended, filter_ident.
    destruct (Z.testbit (wrap32 id) 31) eqn:Hb.
    - destruct Hid as (Hi & He & _). split; [congruence |].
      rewrite (Hext Hi). exact He.
    - destruct Hid as (Hi & Hs & _). split; [congruence |].
      rewrite (Hstd Hi), Hs.
      symmetry. apply bit31_clear_small; [apply wrap32_range | exact Hb]. }
  assert (Hsrc : DLC rx <= Z.of_nat (length (Data rx))).
  { rewrite Hdlc, Hdlc', Hdat.
    destruct (Z.eq_dec len 0) as [-> | Hne]; [lia |].
    assert (Hlast : Z.of_nat (Z.to_nat (len - 1)) < len) by lia.
    destruct (Hnew _ Hlast) as [Heq _].
    destruct (Hnew _ Hlast) as [_ [b Hb]]. rewrite <- Heq in Hb.
    apply lookup_lt_Some in Hb. lia. }
  unfold CanReceivePacket. cbn [fst snd].
  apply packetIdMatches_spec in Hm. rewrite Hm.
  destruct (copy_loop_total 256 0 rx (out_data o)) as [data' Hcopy];
    try (rewrite ?Hdlc, ?Hdlc'; lia).
  rewrite Hcopy. eexists. split; [reflexivity |].
  cbn [out_len out_data].
  apply copy_loop_spec in Hcopy as (_ & _ & Hgot & _); [| lia | lia].
  split.
  - rewrite Hdlc, Hdlc'. apply wrap8_small. lia.
  - intros k Hk. destruct (Hgot k) as [Hk1 _]; [rewrite Hdlc, Hdlc'; lia |].
    rewrite Hk1, Hdat. apply Hnew. exact Hk.
Qed.

Lemma CanTransmit_receive_round_trip_witness :
  exists o',
    CanReceivePacket 0x7E1 0 4
        (HAL_OK, mkRxMsg 0x7E1 0x1234 0 3 [1; 2; 3; 9; 9; 9; 9; 9])
        (mkRxOut [0; 0; 0; 0; 0; 0; 0; 0] 0)
      = Some (true, o') /\
    out_len o' = 3 /\
    forall k : nat, Z.of_nat k < 3 -> out_data o' !! k = [1; 2; 3] !! k.
Proof.
  apply (CanTransmit_receive_round_trip 0x7E1 0 4 0
           (mkTxMsg 0 0x66 4 2 8 [9; 9; 9; 9; 9; 9; 9; 9])
           (mkTxMsg 0x7E1 0x66 0 0 3 [1; 2; 3; 9; 9; 9; 9; 9])
           [1; 2; 3] 3 50
           (mkRxMsg 0x7E1 0x1234 0 3 [1; 2; 3; 9; 9; 9; 9; 9])
           (mkRxOut [0; 0; 0; 0; 0; 0; 0; 0] 0)).
  - lia.
  - reflexivity.
  - unfold carries. cbn. repeat split; try reflexivity. intros H. discriminate H.
  - simpl. lia.
Defined.

(** *** Initialisation *)

(** A true answer of [CanGetSpeedConfig], for a clock whose quotients fit
    the 16-bit prescaler: the outputs are those of a satisfying entry. *)
Lemma CanGetSpeedConfig_true_inv (clk baud : Z) (o o' : speed_out) :
  0 <= clk -> clk / 2 < 524288 * baud ->
  CanGetSpeedConfig clk baud o = Some (true, o') ->
  exists e,
    entry_bounds e /\ satisfies clk baud e /\
    o' = mkOut (quotient clk baud e) (tseg1 e) (tseg2 e).
Proof.
  intros Hclk Hfit Hres.
  assert (Hb : 0 < baud).
  { assert (0 <= clk / 2) by (apply Z.div_pos; lia). lia. }
  destruct (CanGetSpeedConfig_loop_spec clk baud Hclk Hb Hfit canTiming o canTiming_bounds)
    as [(before & e & after & Heq & _ & Hsat & Hret) | (_ & p & Hret & _)];
    unfold CanGetSpeedConfig in Hres; rewrite Hret in Hres; [| discriminate].
  injection Hres as <-. exists e. split; [| split; [exact Hsat | reflexivity]].
  pose proof canTiming_bounds as Hall. rewrite Forall_forall in Hall.
  apply Hall. rewrite Heq. apply list_elem_of_In, in_or_app. right. left. reflexivity.
Qed.

(** A small value shifted into a 32-bit word comes back by the opposite
    shift. *)
Lemma field_shift_back (v pos width : Z) :
  0 <= v < 2 ^ width -> 0 <= width -> 0 <= pos -> pos + width <= 32 ->
  Z.shiftr (wrap32 (Z.shiftl (wrap32 v) pos)) pos = v.
Proof.
  intros Hv Hw Hpos Hfit.
  assert (H32 : 2 ^ width <= 2 ^ 32) by (apply Z.pow_le_mono_r; lia).
  assert (Hv32 : wrap32 v = v) by (unfold wrap32; apply Z.mod_small; lia).
  rewrite Hv32.
  assert (Hsmall : wrap32 (Z.shiftl v pos) = Z.shiftl v pos).
  { unfold wrap32. apply Z.mod_small. rewrite Z.shiftl_mul_pow2 by lia.
    split; [apply Z.mul_nonneg_nonneg; lia |].
    apply Z.lt_le_trans with (2 ^ width * 2 ^ pos).
    - apply Z.mul_lt_mono_pos_r; [apply Z.pow_pos_nonneg; lia | lia].
    - rewrite <- Z.pow_add_r by lia. apply Z.pow_le_mono_r; lia. }
  rewrite Hsmall, Z.shiftr_shiftl_l by lia.
  replace (pos - pos) with 0 by lia. apply Z.shiftl_0_r.
Qed.

Section InitFacts.

Variables (clk rate rxid : Z).
Variables (DISABLE ENABLE MODE_NORMAL SJW_1TQ TS1_Pos TS2_Pos : Z).
Variables (STID_Pos STID_Msk EXID_Pos EXID_Msk RI0R_IDE IDMASK SCALE_32BIT : Z).

(** X10: when [CanInit] gets as far as configuring the controller, with a
    clock whose quotients fit the 16-bit prescaler, the values it hands to
    [HAL_CAN_Init] give the configured rate exactly: with the segment
    lengths read back from the BS1 and BS2 fields (length minus one,
    shifted to the field position), prescaler * kbit/s * (seg1 + seg2 + 1)
    is half the system clock in kHz; the prescaler is in [1,1024] and the
    two fields hold 4..15 and 1..7. *)
Theorem CanInit_bit_rate (prescaler0 : Z) (init : CAN_InitTypeDef)
    (f : CAN_FilterConfTypeDef) :
  0 <= clk -> clk / 2 < 524288 * CanInit_baud rate ->
  0 <= TS1_Pos <= 28 -> 0 <= TS2_Pos <= 29 ->
  CanInit clk rate rxid DISABLE ENABLE MODE_NORMAL SJW_1TQ TS1_Pos TS2_Pos
          STID_Pos STID_Msk EXID_Pos EXID_Msk RI0R_IDE IDMASK SCALE_32BIT
          prescaler0 = Some (InitDone init f) ->
  1 <= Prescaler init <= 1024 /\
  4 <= Z.shiftr (BS1 init) TS1_Pos <= 15 /\
  1 <= Z.shiftr (BS2 init) TS2_Pos <= 7 /\
  Prescaler init * CanInit_baud rate
    * ((Z.shiftr (BS1 init) TS1_Pos + 1) + (Z.shiftr (BS2 init) TS2_Pos + 1) + 1)
  = clk / 2.
Proof.
  intros Hclk Hfit Hp1 Hp2. unfold CanInit.
  destruct (CanGetSpeedConfig clk (CanInit_baud rate) (mkOut prescaler0 0 0))
    as [[[|] o] |] eqn:Hcfg; try discriminate.
  destruct (CanInit_filter _ _ _ _ _ _) as [fid fmask].
  intros H. injection H as <- _.
  cbn [Prescaler BS1 BS2].
  apply CanGetSpeedConfig_true_inv in Hcfg as (e & (H1 & H2 & H3) & [Hdiv Hq] & ->);
    [| exact Hclk | exact Hfit].
  cbn [out_prescaler out_tseg1 out_tseg2].
  rewrite (field_shift_back (tseg1 e - 1) TS1_Pos 4) by lia.
  rewrite (field_shift_back (tseg2 e - 1) TS2_Pos 3) by lia.
  split; [exact Hq |]. split; [lia |]. split; [lia |].
  unfold divides_evenly, quotient, total_quanta in *.
  set (d := CanInit_baud rate * (tseg1 e + tseg2 e + 1)) in *.
  assert (Hb : 0 < CanInit_baud rate).
  { assert (0 <= clk / 2) by (apply Z.div_pos; lia). lia. }
  assert (Hx : clk / 2 = d * (clk / 2 / d)).
  { apply Z.div_exact; [unfold d; nia | exact Hdiv]. }
  rewrite Hx at 2. unfold d. ring.
Qed.

(** X11: [CanInit] sees the configured baudrate in whole kbit/s only:
    what is left of a division by 1000 is dropped, so a rate that is no
    multiple of 1000 bit/s is configured exactly as the next lower
    multiple is. *)
Theorem CanInit_whole_kbit (prescaler0 : Z) :
  0 <= rate ->
  CanInit clk rate rxid DISABLE ENABLE MODE_NORMAL SJW_1TQ TS1_Pos TS2_Pos
          STID_Pos STID_Msk EXID_Pos EXID_Msk RI0R_IDE IDMASK SCALE_32BIT
          prescaler0
  = CanInit clk (1000 * (rate / 1000)) rxid DISABLE ENABLE MODE_NORMAL SJW_1TQ
          TS1_Pos TS2_Pos STID_Pos STID_Msk EXID_Pos EXID_Msk RI0R_IDE IDMASK
          SCALE_32BIT prescaler0.
Proof.
  intros Hrate. unfold CanInit, CanInit_baud.
  assert (Hq : Z.quot (1000 * (rate / 1000)) 1000 = Z.quot rate 1000).
  { rewrite (Z.quot_div_nonneg rate 1000) by lia.
    rewrite Z.mul_comm. apply Z.quot_mul. lia. }
  rewrite Hq. reflexivity.
Qed.

(** X12: a configured baudrate below 1000 bit/s reaches the timing search
    as 0 kbit/s, and the search divides by zero at the first table entry:
    [CanInit] has no defined result, whatever the clock. *)
Theorem CanInit_rate_below_1000 (prescaler0 : Z) :
  0 <= rate < 1000 ->
  CanInit clk rate rxid DISABLE ENABLE MODE_NORMAL SJW_1TQ TS1_Pos TS2_Pos
          STID_Pos STID_Msk EXID_Pos EXID_Msk RI0R_IDE IDMASK SCALE_32BIT
          prescaler0 = None.
Proof.
  intros Hrate. unfold CanInit, CanInit_baud.
  rewrite Z.quot_small by lia. reflexivity.
Qed.

(** The two 16-bit halves of a 32-bit word put it together again. *)
Lemma halves_recombine (x : Z) :
  0 <= x < 2 ^ 32 ->
  0 <= Z.land (Z.shiftr x 16) 0x0000FFFF < 65536 /\
  0 <= Z.land x 0x0000FFFF < 65536 /\
  Z.land (Z.shiftr x 16) 0x0000FFFF * 65536 + Z.land x 0x0000FFFF = x.
Proof.
  intros Hx. change 0x0000FFFF with (Z.ones 16).
  rewrite !Z.land_ones by lia. rewrite Z.shiftr_div_pow2 by lia.
  change (2 ^ 16) with 65536.
  assert (Hhi : 0 <= x / 65536 < 65536).
  { split; [apply Z.div_pos; lia | apply Z.div_lt_upper_bound; lia]. }
  rewrite (Z.mod_small (x / 65536)) by lia.
  pose proof (Z.mod_pos_bound x 65536 ltac:(lia)) as Hlo.
  pose proof (Z.div_mod x 65536 ltac:(lia)) as Hdm.
  repeat split; lia.
Qed.

(** X13: the filter that [CanInit] hands to [HAL_CAN_ConfigFilter] is
    filter 0 on FIFO 0, and carries the 32-bit filter identifier and mask
    computed from the receive identifier as 16-bit halves that put them
    together again without loss. *)
Theorem CanInit_filter_halves (prescaler0 : Z) (init : CAN_InitTypeDef)
    (f : CAN_FilterConfTypeDef) :
  CanInit clk rate rxid DISABLE ENABLE MODE_NORMAL SJW_1TQ TS1_Pos TS2_Pos
          STID_Pos STID_Msk EXID_Pos EXID_Msk RI0R_IDE IDMASK SCALE_32BIT
          prescaler0 = Some (InitDone init f) ->
  FilterNumber f = 0 /\ FilterFIFOAssignment f = 0 /\
  FilterActivation f = ENABLE /\
  0 <= FilterIdHigh f < 65536 /\ 0 <= FilterIdLow f < 65536 /\
  0 <= FilterMaskIdHigh f < 65536 /\ 0 <= FilterMaskIdLow f < 65536 /\
  FilterIdHigh f * 65536 + FilterIdLow f
    = fst (CanInit_filter rxid STID_Pos STID_Msk EXID_Pos EXID_Msk RI0R_IDE) /\
  FilterMaskIdHigh f * 65536 + FilterMaskIdLow f
    = snd (CanInit_filter rxid STID_Pos STID_Msk EXID_Pos EXID_Msk RI0R_IDE).
Proof.
  unfold CanInit.
  destruct (CanGetSpeedConfig clk (CanInit_baud rate) (mkOut prescaler0 0 0))
    as [[[|] o] |]; try discriminate.
  assert (Hrange : 0 <= fst (CanInit_filter rxid STID_Pos STID_Msk EXID_Pos EXID_Msk RI0R_IDE) < 2 ^ 32
                   /\ 0 <= snd (CanInit_filter rxid STID_Pos STID_Msk EXID_Pos EXID_Msk RI0R_IDE) < 2 ^ 32).
  { unfold CanInit_filter.
    destruct (Z.land (wrap32 rxid) 0x80000000 =? 0); cbn [fst snd];
      split; apply wrap32_range. }
  destruct (CanInit_filter _ _ _ _ _ _) as [fid fmask]. cbn [fst snd] in *.
  intros H. injection H as _ <-.
  cbn [FilterNumber FilterFIFOAssignment FilterActivation FilterIdHigh
       FilterIdLow FilterMaskIdHigh FilterMaskIdLow].
  destruct Hrange as [Hid Hmask].
  destruct (halves_recombine fid Hid) as (A1 & A2 & A3).
  destruct (halves_recombine fmask Hmask) as (B1 & B2 & B3).
  repeat split; (reflexivity || lia).
Qed.

End InitFacts.

Lemma CanInit_bit_rate_witness :
  CanInit 72000 500000 0x667 0 1 0 0 16 20 21 0xFFE00000 3 0x001FFFF8 4 0 1 0
    = Some (InitDone (mkInit 9 0 0 0x40000 0x100000 0 0 0 0 0 0)
                     (mkFilter 0xCCE0 0 0xFFE0 4 0 0 0 1 1 14)) /\
  1 <= 9 <= 1024 /\
  4 <= Z.shiftr 0x40000 16 <= 15 /\
  1 <= Z.shiftr 0x100000 20 <= 7 /\
  9 * CanInit_baud 500000
    * ((Z.shiftr 0x40000 16 + 1) + (Z.shiftr 0x100000 20 + 1) + 1) = 72000 / 2.
Proof.
  split; [reflexivity |].
  apply (CanInit_bit_rate 72000 500000 0x667 0 1 0 0 16 20 21 0xFFE00000 3
           0x001FFFF8 4 0 1 0
           (mkInit 9 0 0 0x40000 0x100000 0 0 0 0 0 0)
           (mkFilter 0xCCE0 0 0xFFE0 4 0 0 0 1 1 14)).
  - lia.
  - vm_compute. reflexivity.
  - lia.
  - lia.
  - reflexivity.
Defined.

Lemma CanInit_whole_kbit_witness :
  CanInit 72000 83333 0x667 0 1 0 0 16 20 21 0xFFE00000 3 0x001FFFF8 4 0 1 0
  = CanInit 72000 (1000 * (83333 / 1000)) 0x667 0 1 0 0 16 20 21 0xFFE00000 3
      0x001FFFF8 4 0 1 0.
Proof.
  apply (CanInit_whole_kbit 72000 83333 0x667 0 1 0 0 16 20 21 0xFFE00000 3
           0x001FFFF8 4 0 1 0).
  lia.
Defined.

Lemma CanInit_rate_below_1000_witness :
  CanInit 72000 800 0x667 0 1 0 0 16 20 21 0xFFE00000 3 0x001FFFF8 4 0 1 0
  = None.
Proof.
  apply (CanInit_rate_below_1000 72000 800 0x667 0 1 0 0 16 20 21 0xFFE00000 3
           0x001FFFF8 4 0 1 0).
  lia.
Defined.

Lemma CanInit_filter_halves_witness :
  CanInit 72000 500000 0x80012345 0 1 0 0 16 20 21 0xFFE00000 3 0x001FFFF8 4 0 1 0
    = Some (InitDone (mkInit 9 0 0 0x40000 0x100000 0 0 0 0 0 0)
                     (mkFilter 0x0009 0x1A2C 0x001F 0xFFFC 0 0 0 1 1 14)) /\
  0 = 0 /\ 0 = 0 /\ 1 = 1 /\
  0 <= 0x0009 < 65536 /\ 0 <= 0x1A2C < 65536 /\
  0 <= 0x001F < 65536 /\ 0 <= 0xFFFC < 65536 /\
  0x0009 * 65536 + 0x1A2C
    = fst (CanInit_filter 0x80012345 21 0xFFE00000 3 0x001FFFF8 4) /\
  0x001F * 65536 + 0xFFFC
    = snd (CanInit_filter 0x80012345 21 0xFFE00000 3 0x001FFFF8 4).
Proof.
  split; [reflexivity |].
  apply (CanInit_filter_halves 72000 500000 0x80012345 0 1 0 0 16 20 21
           0xFFE00000 3 0x001FFFF8 4 0 1 0
           (mkInit 9 0 0 0x40000 0x100000 0 0 0 0 0 0)
           (mkFilter 0x0009 0x1A2C 0x001F 0xFFFC 0 0 0 1 1 14)).
  reflexivity.
Defined.

(* ===================================================================== *)
(** * Further properties of cpu.c *)
(* ===================================================================== *)

(** X15: all or nothing.  In every build and every state
    [CpuStartUserProgram] either returns with memory and log untouched,
    which it does exactly when the checksum is invalid or an enabled hook
    vetoes, or it hands over to the user program; in that case interrupts
    are enabled as the last step before the call, and memory is as it
    was. *)
Theorem CpuStartUserProgram_all_or_nothing (hook com : Z)
    (verify start_hook : world -> bool) (base : Z) (w : world) :
  (CpuStartUserProgram hook com verify start_hook base w = Returned tt w /\
   (verify w = false \/ (0 < hook /\ start_hook w = false)))
  \/
  (verify w = true /\ (0 < hook -> start_hook w = true) /\
   exists w' before target,
     CpuStartUserProgram hook com verify start_hook base w = Transferred w' /\
     mem w' = mem w /\
     log w' = log w ++ before ++ [EvCpuIrqEnable; EvCall target] /\
     ~ In EvCpuIrqEnable before).
Proof.
  destruct (verify w) eqn:Hv.
  - destruct (Z_lt_le_dec 0 hook) as [Hh | Hh].
    + destruct (start_hook w) eqn:Hs.
      * right. split; [reflexivity |]. split; [reflexivity |].
        eexists. exists ((if com >? 0 then [EvComFree] else []) ++
                         [EvTimerReset;
                          EvWriteReg SCB_VTOR (Z.land (wrap32 base) 0x1FFFFF80)]).
        eexists. split.
        { apply CpuStartUserProgram_run; [exact Hv | intros _; exact Hs]. }
        split; [reflexivity |]. split.
        { cbn [log]. rewrite <- !app_assoc. reflexivity. }
        destruct (com >? 0); cbn; intros H;
          repeat (destruct H as [H | H]; [discriminate H |]); exact H.
      * left. split; [| right; split; [exact Hh | reflexivity]].
        unfold CpuStartUserProgram, query, mbind, M_bind.
        rewrite Hv. cbn [negb].
        rewrite (proj2 (Z.gtb_lt _ _) Hh), Hs. reflexivity.
    + right. split; [reflexivity |]. split; [intros H; lia |].
      eexists. exists ((if com >? 0 then [EvComFree] else []) ++
                       [EvTimerReset;
                        EvWriteReg SCB_VTOR (Z.land (wrap32 base) 0x1FFFFF80)]).
      eexists. split.
      { apply CpuStartUserProgram_run; [exact Hv | intros H; lia]. }
      split; [reflexivity |]. split.
      { cbn [log]. rewrite <- !app_assoc. reflexivity. }
      destruct (com >? 0); cbn; intros H;
        repeat (destruct H as [H | H]; [discriminate H |]); exact H.
  - left. split; [| left; reflexivity].
    unfold CpuStartUserProgram, query, mbind, M_bind. rewrite Hv. reflexivity.
Qed.

(** The memory after the copy loop, for a destination block that does not
    start inside the source block after its first byte: a forward copy
    then reads every source byte before it can be overwritten. *)
Lemma CpuMemCopy_loop_mem (fuel : nat) :
  forall (to from len : Z) (w w' : world),
    0 <= to -> to + len <= 2 ^ 32 -> 0 <= from -> from + len <= 2 ^ 32 ->
    0 <= len < 65536 ->
    to <= from \/ from + len <= to ->
    CpuMemCopy_loop fuel to from len w = Returned tt w' ->
    (forall j, 0 <= j < len -> mem w' (to + j) = wrap8 (mem w (from + j))) /\
    (forall a, ~ to <= a < to + len -> mem w' a = mem w a).
Proof.
  induction fuel as [| fuel IH];
    intros to from len w w' Hto Hto' Hfrom Hfrom' Hlen Hsafe Hrun; [discriminate |].
  cbn [CpuMemCopy_loop] in Hrun.
  destruct (len >? 0) eqn:Hpos.
  - apply Z.gtb_lt in Hpos.
    unfold mbind, M_bind in Hrun. revert Hrun. run_events. intros Hrun.
    rewrite wrap16_pred in Hrun by lia.
    destruct (Z.eq_dec len 1) as [-> | Hne].
    + replace (1 - 1) with 0 in Hrun by lia.
      destruct fuel as [| fuel']; [discriminate |].
      cbn [CpuMemCopy_loop] in Hrun. cbn in Hrun. injection Hrun as <-.
      cbn [mem]. split.
      * intros j Hj. replace j with 0 by lia. rewrite !Z.add_0_r.
        rewrite Z.eqb_refl. reflexivity.
      * intros a Ha. destruct (Z.eqb_spec a to); [lia | reflexivity].
    + assert (Hw1 : wrap32 (to + 1) = to + 1) by (unfold wrap32; apply Z.mod_small; lia).
      assert (Hw2 : wrap32 (from + 1) = from + 1) by (unfold wrap32; apply Z.mod_small; lia).
      rewrite Hw1, Hw2 in Hrun.
      apply IH in Hrun as [Hnew Hold]; try lia.
      cbn [mem] in Hnew, Hold. split.
      * intros j Hj. destruct (Z.eq_dec j 0) as [-> | Hj0].
        -- rewrite !Z.add_0_r. rewrite Hold by lia.
           rewrite Z.eqb_refl. reflexivity.
        -- replace (to + j) with (to + 1 + (j - 1)) by lia.
           rewrite Hnew by lia.
           replace (from + 1 + (j - 1)) with (from + j) by lia.
           destruct (Z.eqb_spec (from + j) to); [lia | reflexivity].
      * intros a Ha. rewrite Hold by lia.
        destruct (Z.eqb_spec a to); [lia | reflexivity].
  - rewrite Z.gtb_ltb in Hpos. apply Z.ltb_ge in Hpos.
    injection Hrun as <-. split; [intros j Hj; lia | reflexivity].
Qed.

(** X17: [CpuMemCopy] between blocks that do not run over the end of the
    address space, with the destination not starting inside the source
    block behind its first byte (in particular: blocks that do not
    overlap, or a copy towards lower addresses): every destination byte
    holds the byte the source had before the call, and memory outside the
    destination block is as it was. *)
Theorem CpuMemCopy_copies (dest src len : Z) (w : world) :
  0 <= dest -> dest + len <= 2 ^ 32 -> 0 <= src -> src + len <= 2 ^ 32 ->
  0 <= len <= 65535 ->
  dest <= src \/ src + len <= dest ->
  exists w',
    CpuMemCopy dest src len w = Returned tt w' /\
    (forall j, 0 <= j < len -> mem w' (dest + j) = wrap8 (mem w (src + j))) /\
    (forall a, ~ dest <= a < dest + len -> mem w' a = mem w a).
Proof.
  intros Hd Hd' Hs Hs' Hlen Hsafe.
  destruct (CpuMemCopy_loop_log loop_fuel dest src len w) as (w' & Hrun & _);
    [lia | unfold loop_fuel; lia |].
  exists w'. split; [exact Hrun |].
  apply (CpuMemCopy_loop_mem loop_fuel dest src len w w'); try assumption; lia.
Qed.

Lemma CpuMemCopy_copies_witness :
  exists w',
    CpuMemCopy 0x20000000 0x20000002 4
        (mkWorld (fun a => a mod 256) []) = Returned tt w' /\
    (forall j, 0 <= j < 4 ->
       mem w' (0x20000000 + j) = wrap8 ((0x20000002 + j) mod 256)) /\
    (forall a, ~ 0x20000000 <= a < 0x20000000 + 4 -> mem w' a = a mod 256).
Proof.
  apply (CpuMemCopy_copies 0x20000000 0x20000002 4
           (mkWorld (fun a => a mod 256) [])); lia.
Defined.

(** Bytes outside the destination block are never written, overlapping
    blocks or not. *)
Lemma CpuMemCopy_loop_frame (fuel : nat) :
  forall (to from len : Z) (w w' : world),
    0 <= to -> to + len <= 2 ^ 32 -> 0 <= len < 65536 ->
    CpuMemCopy_loop fuel to from len w = Returned tt w' ->
    forall a, ~ to <= a < to + len -> mem w' a = mem w a.
Proof.
  induction fuel as [| fuel IH];
    intros to from len w w' Hto Hto' Hlen Hrun a Ha; [discriminate |].
  cbn [CpuMemCopy_loop] in Hrun.
  destruct (len >? 0) eqn:Hpos.
  - apply Z.gtb_lt in Hpos.
    unfold mbind, M_bind in Hrun. revert Hrun. run_events. intros Hrun.
    rewrite wrap16_pred in Hrun by lia.
    destruct (Z.eq_dec len 1) as [-> | Hne].
    + replace (1 - 1) with 0 in Hrun by lia.
      destruct fuel as [| fuel']; [discriminate |].
      cbn [CpuMemCopy_loop] in Hrun. cbn in Hrun. injection Hrun as <-.
      cbn [mem]. destruct (Z.eqb_spec a to); [lia | reflexivity].
    + assert (Hw1 : wrap32 (to + 1) = to + 1) by (unfold wrap32; apply Z.mod_small; lia).
      rewrite Hw1 in Hrun.
      apply (IH _ _ _ _ _) with (a := a) in Hrun; try lia.
      rewrite Hrun. cbn [mem]. destruct (Z.eqb_spec a to); [lia | reflexivity].
  - rewrite Z.gtb_ltb in Hpos. apply Z.ltb_ge in Hpos.
    injection Hrun as <-. reflexivity.
Qed.

Lemma wrap8_idem (x : Z) : wrap8 (wrap8 x) = wrap8 x.
Proof. unfold wrap8. apply Z.mod_mod. lia. Qed.

(** The copy loop with the destination one byte above the source. *)
Lemma CpuMemCopy_loop_smear (fuel : nat) :
  forall (from len : Z) (w w' : world),
    0 <= from -> from + 1 + len <= 2 ^ 32 -> 0 <= len < 65536 ->
    CpuMemCopy_loop fuel (from + 1) from len w = Returned tt w' ->
    forall j, 0 <= j < len -> mem w' (from + 1 + j) = wrap8 (mem w from).
Proof.
  induction fuel as [| fuel IH];
    intros from len w w' Hfrom Hfrom' Hlen Hrun j Hj; [discriminate |].
  cbn [CpuMemCopy_loop] in Hrun.
  replace (len >? 0) with true in Hrun by (symmetry; apply Z.gtb_lt; lia).
  unfold mbind, M_bind in Hrun. revert Hrun. run_events. intros Hrun.
  rewrite wrap16_pred in Hrun by lia.
  assert (Hfirst : mem w' (from + 1) = wrap8 (mem w from)).
  { destruct (Z.eq_dec len 1) as [-> | Hne].
    - replace (1 - 1) with 0 in Hrun by lia.
      destruct fuel as [| fuel']; [discriminate |].
      cbn [CpuMemCopy_loop] in Hrun. cbn in Hrun. injection Hrun as <-.
      cbn [mem]. rewrite Z.eqb_refl. reflexivity.
    - assert (Hw1 : wrap32 (from + 1 + 1) = from + 1 + 1)
        by (unfold wrap32; apply Z.mod_small; lia).
      rewrite Hw1 in Hrun.
      apply CpuMemCopy_loop_frame with (a := from + 1) in Hrun; try lia.
      rewrite Hrun. cbn [mem]. rewrite Z.eqb_refl. reflexivity. }
  destruct (Z.eq_dec j 0) as [-> | Hj0]; [rewrite Z.add_0_r; exact Hfirst |].
  assert (Hw1 : wrap32 (from + 1 + 1) = from + 1 + 1)
    by (unfold wrap32; apply Z.mod_small; lia).
  assert (Hw2 : wrap32 (from + 1) = from + 1)
    by (unfold wrap32; apply Z.mod_small; lia).
  rewrite Hw1, Hw2 in Hrun.
  apply (IH _ _ _ _) with (j := j - 1) in Hrun; try lia.
  replace (from + 1 + j) with (from + 1 + 1 + (j - 1)) by lia.
  rewrite Hrun. cbn [mem]. rewrite Z.eqb_refl. apply wrap8_idem.
Qed.

(** X18: [CpuMemCopy] is a forward byte copy and not a move of overlapping
    blocks: with the destination one byte above the source, every byte of
    the destination block ends up holding the first source byte. *)
Theorem CpuMemCopy_overlap_smears (src len : Z) (w : world) :
  0 <= src -> src + 1 + len <= 2 ^ 32 -> 0 <= len <= 65535 ->
  exists w',
    CpuMemCopy (src + 1) src len w = Returned tt w' /\
    forall j, 0 <= j < len -> mem w' (src + 1 + j) = wrap8 (mem w src).
Proof.
  intros Hs Hs' Hlen.
  destruct (CpuMemCopy_loop_log loop_fuel (src + 1) src len w) as (w' & Hrun & _);
    [lia | unfold loop_fuel; lia |].
  exists w'. split; [exact Hrun |].
  apply (CpuMemCopy_loop_smear loop_fuel src len w w'); try assumption; lia.
Qed.

Lemma CpuMemCopy_overlap_smears_witness :
  exists w',
    CpuMemCopy (0x20000000 + 1) 0x20000000 3
        (mkWorld (fun a => a - 0x20000000 + 65) []) = Returned tt w' /\
    forall j, 0 <= j < 3 ->
      mem w' (0x20000000 + 1 + j) = wrap8 (0x20000000 - 0x20000000 + 65).
Proof.
  apply (CpuMemCopy_overlap_smears 0x20000000 3
           (mkWorld (fun a => a - 0x20000000 + 65) [])); lia.
Defined.
